(** * Text Intelligence API: the cache-and-dispatch core of [app.py]

    A shallow embedding of the request handlers of [app.py] (key derivation,
    cache-first synchronous endpoints, job submission and job lookup) over an
    explicit model of the Redis store, together with the properties of the
    design document that concern them. *)

From Stdlib Require Import ZArith List String Ascii Bool Lia.
From stdpp Require Import base option list gmap.

Local Open Scope Z_scope.

(** ** Python values

    A Python [str] is a sequence of code points, a [bytes] object a sequence
    of octets.  Both are lists of integers; the ranges (below [0x110000],
    below [256]) are maintained by the operations. *)

Abbreviation pystr := (list Z) (only parsing).
Abbreviation bytes := (list Z) (only parsing).

(** A string literal of the source, as a [str]. *)
Definition py (s : string) : pystr :=
  map (fun a => Z.of_nat (nat_of_ascii a)) (list_ascii_of_string s).

(** Exceptions that the modelled code raises or lets through. *)
Inductive exn : Type :=
| UnicodeEncodeError
| UnicodeDecodeError
| ResponseError                       (* redis-py: the server rejected a command *)
| NoSuchJobError                      (* rq: Job.fetch on a missing job *)
| KeyError (k : pystr)
| ValueError (msg : pystr)
| PipelineError (code : nat)          (* anything raised inside a model pipeline *)
| HTTPException (status_code : Z) (detail : pystr)
| RequestValidationError.             (* FastAPI: body rejected, HTTP 422 *)

Inductive res (A : Type) : Type :=
| Ok (a : A)
| Raise (e : exn).
Arguments Ok {A} a.
Arguments Raise {A} e.

Definition res_bind {A B} (r : res A) (k : A -> res B) : res B :=
  match r with
  | Ok a => k a
  | Raise e => Raise e
  end.

(** ** [str.encode("utf-8")] and [bytes.decode("utf-8")] (strict) *)

Module Utf8.

Definition is_surrogate (c : Z) : bool := (0xD800 <=? c) && (c <=? 0xDFFF).

Definition encode_cp (c : Z) : option bytes :=
  if c <? 0 then None
  else if c <? 0x80 then Some [c]
  else if c <? 0x800 then Some [0xC0 + c / 64; 0x80 + c mod 64]
  else if c <? 0x10000 then
    if is_surrogate c then None
    else Some [0xE0 + c / 4096; 0x80 + (c / 64) mod 64; 0x80 + c mod 64]
  else if c <? 0x110000 then
    Some [0xF0 + c / 262144; 0x80 + (c / 4096) mod 64;
          0x80 + (c / 64) mod 64; 0x80 + c mod 64]
  else None.

Fixpoint encode_opt (s : pystr) : option bytes :=
  match s with
  | [] => Some []
  | c :: s' =>
      match encode_cp c, encode_opt s' with
      | Some b, Some bs => Some (b ++ bs)
      | _, _ => None
      end
  end.

Definition encode (s : pystr) : res bytes :=
  match encode_opt s with
  | Some b => Ok b
  | None => Raise UnicodeEncodeError
  end.

Definition is_cont (b : Z) : bool := (0x80 <=? b) && (b <=? 0xBF).

Definition cons_opt (c : Z) (o : option pystr) : option pystr :=
  match o with
  | Some s => Some (c :: s)
  | None => None
  end.

Fixpoint decode_opt (bs : bytes) : option pystr :=
  match bs with
  | [] => Some []
  | b1 :: r1 =>
      if (0 <=? b1) && (b1 <? 0x80) then cons_opt b1 (decode_opt r1)
      else if (0xC2 <=? b1) && (b1 <=? 0xDF) then
        match r1 with
        | b2 :: r2 =>
            if is_cont b2
            then cons_opt ((b1 - 0xC0) * 64 + (b2 - 0x80)) (decode_opt r2)
            else None
        | _ => None
        end
      else if (0xE0 <=? b1) && (b1 <=? 0xEF) then
        match r1 with
        | b2 :: b3 :: r3 =>
            let c := (b1 - 0xE0) * 4096 + (b2 - 0x80) * 64 + (b3 - 0x80) in
            if is_cont b2 && is_cont b3 && (0x800 <=? c) && negb (is_surrogate c)
            then cons_opt c (decode_opt r3)
            else None
        | _ => None
        end
      else if (0xF0 <=? b1) && (b1 <=? 0xF4) then
        match r1 with
        | b2 :: b3 :: b4 :: r4 =>
            let c := (b1 - 0xF0) * 262144 + (b2 - 0x80) * 4096
                     + (b3 - 0x80) * 64 + (b4 - 0x80) in
            if is_cont b2 && is_cont b3 && is_cont b4
               && (0x10000 <=? c) && (c <? 0x110000)
            then cons_opt c (decode_opt r4)
            else None
        | _ => None
        end
      else None
  end.

Definition decode (bs : bytes) : res pystr :=
  match decode_opt bs with
  | Some s => Ok s
  | None => Raise UnicodeDecodeError
  end.

End Utf8.

(** ** [hashlib.sha256(...).hexdigest()] (FIPS 180-4) *)

Module Sha256.

Definition add32 (x y : Z) : Z := (x + y) mod 2 ^ 32.

Definition rotr (n x : Z) : Z :=
  (Z.lor (Z.shiftr x n) (Z.shiftl x (32 - n))) mod 2 ^ 32.

Definition shr (n x : Z) : Z := Z.shiftr x n.

Definition not32 (x : Z) : Z := (Z.lnot x) mod 2 ^ 32.

Definition Ch (x y z : Z) : Z := Z.lxor (Z.land x y) (Z.land (not32 x) z).

Definition Maj (x y z : Z) : Z :=
  Z.lxor (Z.lxor (Z.land x y) (Z.land x z)) (Z.land y z).

Definition bsig0 (x : Z) : Z := Z.lxor (Z.lxor (rotr 2 x) (rotr 13 x)) (rotr 22 x).
Definition bsig1 (x : Z) : Z := Z.lxor (Z.lxor (rotr 6 x) (rotr 11 x)) (rotr 25 x).
Definition ssig0 (x : Z) : Z := Z.lxor (Z.lxor (rotr 7 x) (rotr 18 x)) (shr 3 x).
Definition ssig1 (x : Z) : Z := Z.lxor (Z.lxor (rotr 17 x) (rotr 19 x)) (shr 10 x).

(** The constants are the first thirty-two bits of the fractional parts of
    roots of the first primes: cube roots of the first sixty-four for the
    round constants, square roots of the first eight for the initial hash
    value. *)
Definition is_prime (n : Z) : bool :=
  forallb (fun d => negb (n mod d =? 0)) (map Z.of_nat (seq 2 (Z.to_nat n - 2))).

Definition primes : list Z := List.filter is_prime (map Z.of_nat (seq 2 310)).

(** The largest [r] below [2 ^ bits] with [r ^ k <= x], found bit by bit. *)
Fixpoint iroot (k : Z) (bits : nat) (x acc : Z) : Z :=
  match bits with
  | O => acc
  | S bits' =>
      let c := acc + 2 ^ Z.of_nat bits' in
      if c ^ k <=? x then iroot k bits' x c else iroot k bits' x acc
  end.

Definition frac_root (k p : Z) : Z := iroot k 40 (p * 2 ^ (32 * k)) 0 mod 2 ^ 32.

Definition K : list Z := Eval vm_compute in map (frac_root 3) primes.

(** The eight working variables, respectively the eight words of a hash value. *)
Record state : Type := State {
  sa : Z; sb : Z; sc : Z; sd : Z; se : Z; sf : Z; sg : Z; sh : Z
}.

Definition H0 : state :=
  Eval vm_compute in
    match map (frac_root 2) (firstn 8 primes) with
    | [a; b; c; d; e; f; g; h] => State a b c d e f g h
    | _ => State 0 0 0 0 0 0 0 0
    end.

(** Big-endian reading and writing of octets. *)
Definition be_to_Z (bs : bytes) : Z := fold_left (fun acc b => acc * 256 + b) bs 0.

Fixpoint Z_to_be (n : nat) (x : Z) : bytes :=
  match n with
  | O => []
  | S n' => Z_to_be n' (x / 256) ++ [x mod 256]
  end.

(** Padding: a [1] bit, zero bits up to 56 modulo 64 octets, the bit length
    on 64 bits. *)
Definition pad (msg : bytes) : bytes :=
  let l := Z.of_nat (length msg) in
  msg ++ [0x80] ++ repeat 0 (Z.to_nat ((55 - l) mod 64)) ++ Z_to_be 8 (8 * l).

Fixpoint chunks (n : nat) (size : nat) (bs : bytes) : list bytes :=
  match n with
  | O => []
  | S n' => firstn size bs :: chunks n' size (skipn size bs)
  end.

Definition block_words (block : bytes) : list Z :=
  map be_to_Z (chunks 16 4 block).

(** Message schedule: sixteen words of the block, then forty-eight derived. *)
Fixpoint schedule_ext (n : nat) (w : list Z) : list Z :=
  match n with
  | O => w
  | S n' =>
      let t := length w in
      let x := add32 (add32 (ssig1 (nth (t - 2) w 0)) (nth (t - 7) w 0))
                     (add32 (ssig0 (nth (t - 15) w 0)) (nth (t - 16) w 0)) in
      schedule_ext n' (w ++ [x])
  end.

Definition schedule (block : bytes) : list Z := schedule_ext 48 (block_words block).

Definition round (s : state) (kw : Z * Z) : state :=
  let '(k, w) := kw in
  let t1 := add32 (add32 (add32 (sh s) (bsig1 (se s)))
                         (add32 (Ch (se s) (sf s) (sg s)) k)) w in
  let t2 := add32 (bsig0 (sa s)) (Maj (sa s) (sb s) (sc s)) in
  State (add32 t1 t2) (sa s) (sb s) (sc s) (add32 (sd s) t1) (se s) (sf s) (sg s).

Definition compress (h : state) (block : bytes) : state :=
  let s := fold_left round (combine K (schedule block)) h in
  State (add32 (sa h) (sa s)) (add32 (sb h) (sb s))
        (add32 (sc h) (sc s)) (add32 (sd h) (sd s))
        (add32 (se h) (se s)) (add32 (sf h) (sf s))
        (add32 (sg h) (sg s)) (add32 (sh h) (sh s)).

Definition digest (msg : bytes) : state :=
  let p := pad msg in
  fold_left compress (chunks (length p / 64)%nat 64 p) H0.

(** Lower-case hexadecimal rendering. *)
Definition hex_digit (n : Z) : Z :=
  if n <? 10 then 48 + n else 87 + n.

Definition hex8 (w : Z) : pystr :=
  [ hex_digit (w / 2 ^ 28 mod 16); hex_digit (w / 2 ^ 24 mod 16);
    hex_digit (w / 2 ^ 20 mod 16); hex_digit (w / 2 ^ 16 mod 16);
    hex_digit (w / 2 ^ 12 mod 16); hex_digit (w / 2 ^ 8 mod 16);
    hex_digit (w / 2 ^ 4 mod 16); hex_digit (w mod 16) ].

Definition hex_state (s : state) : pystr :=
  hex8 (sa s) ++ hex8 (sb s) ++ hex8 (sc s) ++ hex8 (sd s) ++
  hex8 (se s) ++ hex8 (sf s) ++ hex8 (sg s) ++ hex8 (sh s).

Definition hexdigest (msg : bytes) : pystr := hex_state (digest msg).

End Sha256.

(** A lower-case hexadecimal digit, as a code point. *)
Definition is_hex (c : Z) : Prop := 48 <= c <= 57 \/ 97 <= c <= 102.

(** ** Helpers of [app.py] *)

(** [sha256_text]: [hashlib.sha256(t.encode("utf-8")).hexdigest()]. *)
Definition sha256_text (t : pystr) : res pystr :=
  res_bind (Utf8.encode t) (fun b => Ok (Sha256.hexdigest b)).

(** [cache_key_for_input]: [f"cache:{task}:{extra}:{sha256_text(text)}"];
    callers that omit [extra] pass its default, the empty string. *)
Definition cache_key_for_input (text task extra : pystr) : res pystr :=
  res_bind (sha256_text text) (fun d =>
    Ok (py "cache:" ++ task ++ py ":" ++ extra ++ py ":" ++ d)).

(** Two contents collide under SHA-256 when their UTF-8 encodings differ
    and have the same digest. *)
Definition sha256_collision (c1 c2 : pystr) : Prop :=
  exists b1 b2, Utf8.encode c1 = Ok b1 /\ Utf8.encode c2 = Ok b2
                /\ b1 <> b2 /\ Sha256.digest b1 = Sha256.digest b2.

(** Words of thirty-two bits, and hash values made of them. *)
Definition word32 (x : Z) : Prop := 0 <= x < 2 ^ 32.

Definition words32 (s : Sha256.state) : Prop :=
  word32 (Sha256.sa s) /\ word32 (Sha256.sb s) /\ word32 (Sha256.sc s)
  /\ word32 (Sha256.sd s) /\ word32 (Sha256.se s) /\ word32 (Sha256.sf s)
  /\ word32 (Sha256.sg s) /\ word32 (Sha256.sh s).

(** ** Request bodies, payloads and request models *)

(** JSON values as Python sees them; a [dict] keeps its items in order. *)
#[local] Unset Elimination Schemes.
Inductive pyval : Type :=
| VNone
| VBool (b : bool)
| VInt (n : Z)
| VFloat (m e : Z)                    (* the float m * 2 ^ e *)
| VStr (s : pystr)
| VList (l : list pyval)
| VDict (d : list (pystr * pyval)).
#[local] Set Elimination Schemes.

Abbreviation dict := (list (pystr * pyval)) (only parsing).

Fixpoint dict_get (d : dict) (k : pystr) : option pyval :=
  match d with
  | [] => None
  | (k', v) :: d' => if decide (k' = k) then Some v else dict_get d' k
  end.

(** [d[k]]: raises [KeyError] on a missing key. *)
Definition getitem (d : dict) (k : pystr) : res pyval :=
  match dict_get d k with
  | Some v => Ok v
  | None => Raise (KeyError k)
  end.

Record SummarizeRequest : Type := {
  sr_text : pystr;
  sr_max_length : option Z;      (* Optional[int] = 150 *)
  sr_min_length : option Z       (* Optional[int] = 25 *)
}.

Record QARequest : Type := {
  qa_context : pystr;
  qa_question : pystr
}.

(** [Literal["formal", "informal"]] *)
Inductive Tone : Type := Formal | Informal.

Definition tone_str (t : Tone) : pystr :=
  match t with
  | Formal => py "formal"
  | Informal => py "informal"
  end.

Record RewriteRequest : Type := {
  rw_text : pystr;
  rw_tone : Tone
}.

(** [Literal["summarize", "qa", "rewrite"]], the path parameter of [/submit]. *)
Inductive TaskType : Type := TSummarize | TQa | TRewrite.

Definition task_str (t : TaskType) : pystr :=
  match t with
  | TSummarize => py "summarize"
  | TQa => py "qa"
  | TRewrite => py "rewrite"
  end.

Record SubmitResponse : Type := {
  sub_job_id : pystr;
  sub_status : pystr
}.

(** The JSON object returned by the three synchronous endpoints. *)
Record SyncResponse : Type := {
  resp_task : pystr;
  resp_cached : bool;
  resp_result : pystr
}.

(** The JSON object returned by [/status] and [/result]. *)
Record JobResponse : Type := {
  jr_job_id : pystr;
  jr_status : pystr;
  jr_result : option pyval
}.

Definition opt_int (o : option Z) : pyval :=
  match o with
  | Some n => VInt n
  | None => VNone
  end.

(** ** The shared store and the outside world *)

(** Job states of rq. *)
Inductive JobStatus : Type :=
| Queued | Finished | Failed | Started | Deferred | Scheduled | Stopped | Canceled.

Definition status_str (s : JobStatus) : pystr :=
  match s with
  | Queued => py "queued"
  | Finished => py "finished"
  | Failed => py "failed"
  | Started => py "started"
  | Deferred => py "deferred"
  | Scheduled => py "scheduled"
  | Stopped => py "stopped"
  | Canceled => py "canceled"
  end.

(** What a job hash of rq records, as far as [app.py] reads it: the call
    [process_genai_task(task_type, payload)] to run, the status and the
    return value. *)
Record job_data : Type := {
  jd_task : pystr;
  jd_payload : dict;
  jd_status : JobStatus;
  jd_result : pyval
}.

(** What a key holds.  [RHash] is a job hash as rq writes it; [RHashOther]
    is a job hash in any other condition (a field missing, a field that
    cannot be read), described by what reading the status and the return
    value of the job fetched from it gives. *)
Inductive rvalue : Type :=
| RString (b : bytes)
| RHash (j : job_data)
| RList (l : list pystr)
| RHashOther (status : res JobStatus) (result : res pyval).

(** A call of one of the three core functions, that is, of a model pipeline. *)
Inductive call : Type :=
| SummarizeText (text max_length min_length : pyval)
| AnswerQuestion (context question : pyval)
| RewriteTone (text tone : pyval).

Inductive event : Type :=
| EGet (key : pystr)
| ESetex (key : pystr) (ttl : Z) (value : bytes)
| ECall (c : call)
| EEnqueue (job_id : pystr)
| EFetch (job_id : pystr).

(** One keyspace for cache entries, status records and the keys of rq; every
    key has an optional time of expiry.  [clock] is the time in seconds,
    [draws] the number of identifiers drawn so far, [trace] the commands and
    model calls issued so far, oldest first. *)
Record world : Type := World {
  redis : gmap (list Z) (rvalue * option Z);
  clock : Z;
  draws : nat;
  trace : list event
}.

Definition log (e : event) (w : world) : world :=
  World (redis w) (clock w) (draws w) (trace w ++ [e]).

Definition set_redis (k : pystr) (v : rvalue) (expiry : option Z) (w : world) : world :=
  World (<[k := (v, expiry)]> (redis w)) (clock w) (draws w) (trace w).

Definition advance (d : N) (w : world) : world :=
  World (redis w) (clock w + Z.of_N d) (draws w) (trace w).

Definition draw (w : world) : world :=
  World (redis w) (clock w) (S (draws w)) (trace w).

(** The value of a key that is set and not expired. *)
Definition live (w : world) (k : pystr) : option rvalue :=
  match redis w !! k with
  | Some (v, Some e) => if clock w <? e then Some v else None
  | Some (v, None) => Some v
  | None => None
  end.

Fixpoint calls_of (t : list event) : list call :=
  match t with
  | [] => []
  | ECall c :: t' => c :: calls_of t'
  | _ :: t' => calls_of t'
  end.

Fixpoint writes_of (t : list event) : list (pystr * Z * bytes) :=
  match t with
  | [] => []
  | ESetex k ttl v :: t' => (k, ttl, v) :: writes_of t'
  | _ :: t' => writes_of t'
  end.

(** ** Handlers as state transformers that may raise *)

Definition M (A : Type) : Type := world -> res A * world.

Global Instance M_ret : MRet M := fun A a w => (Ok a, w).

Global Instance M_bind : MBind M := fun A B k m w =>
  match m w with
  | (Ok a, w') => k a w'
  | (Raise e, w') => (Raise e, w')
  end.

Definition raise {A} (e : exn) : M A := fun w => (Raise e, w).

Definition lift {A} (r : res A) : M A := fun w => (r, w).

(** [m] with its exception, if any, caught and returned as a value. *)
Definition attempt {A} (m : M A) : M (res A) :=
  fun w => let '(r, w') := m w in (Ok r, w').

(** Truth value of [cached] in [if cached:], for the [Optional[bytes]] that
    [redis_conn.get] returns: [None] and the empty [bytes] are false. *)
Definition truthy (cached : option bytes) : bool :=
  match cached with
  | Some (_ :: _) => true
  | _ => false
  end.

Definition bytes_of (cached : option bytes) : bytes := default [] cached.

Definition rq_job_key (job_id : pystr) : pystr := py "rq:job:" ++ job_id.
Definition rq_queue_key : pystr := py "rq:queue:genai".
Definition status_key (job_id : pystr) : pystr := py "job:" ++ job_id ++ py ":status".

(** The identifiers waiting in the queue of rq, oldest first. *)
Definition pending (w : world) : list pystr :=
  match live w rq_queue_key with
  | Some (RList q) => q
  | _ => []
  end.

(** The store keeps times in milliseconds in a signed 64-bit integer. *)
Definition LLONG_MAX : Z := 2 ^ 63 - 1.

(** Whether [SETEX] refuses its time argument (invalid expire time): the
    seconds must be positive and at most [LLONG_MAX / 1000]. *)
Definition setex_refused (ttl : Z) : bool :=
  (ttl <=? 0) || (LLONG_MAX / 1000 <? ttl).

(** The part of an identifier before its first colon. *)
Fixpoint before_colon (s : pystr) : pystr :=
  match s with
  | [] => []
  | c :: s' => if c =? 58 then [] else c :: before_colon s'
  end.

(** A fetched job, as far as the handlers use it: what [job.get_status()]
    and [job.result] return or raise. *)
Record Job : Type := {
  Job_get_status : res JobStatus;
  Job_result : res pyval
}.

Section App.

(** The model pipelines behind the three core functions: given the calls made
    so far and the present call, the seconds the call takes and what it
    returns or raises. *)
Variable model : list call -> call -> N * res pystr.

(** [uuid.uuid4()] as rq draws it for a job identifier: the [n]-th draw. *)
Variable uuid4 : nat -> pystr.

(** [CACHE_TTL = int(os.getenv("CACHE_TTL", "86400"))] *)
Variable CACHE_TTL : Z.

(** The conversion that pydantic applies to a JSON value that is not an
    integer where the request model asks for an [int]: the integer it makes
    of the value (of a numeric string, a boolean, a whole float), or none
    when it rejects the value. *)
Variable convert_int : pyval -> option Z.

(** *** redis-py *)

(** [redis_conn.get(key)] *)
Definition redis_get (key : pystr) : M (option bytes) :=
  fun w =>
    let w' := log (EGet key) w in
    match live w key with
    | None => (Ok None, w')
    | Some (RString b) => (Ok (Some b), w')
    | Some _ => (Raise ResponseError, w')
    end.

(** [redis_conn.setex(key, ttl, value)] for a [str] value: the value is
    encoded by the client; the server refuses a time that is not positive or
    that is too large. *)
Definition redis_setex (key : pystr) (ttl : Z) (value : pystr) : M unit :=
  fun w =>
    match Utf8.encode value with
    | Raise e => (Raise e, w)
    | Ok b =>
        let w' := log (ESetex key ttl b) w in
        if setex_refused ttl then (Raise ResponseError, w')
        else (Ok tt, set_redis key (RString b) (Some (clock w + ttl)) w')
    end.

(** *** rq

    [queue.enqueue(f, *args)] draws an identifier, saves the job hash with
    status [queued] under [rq:job:<id>] and appends the identifier to the list
    [rq:queue:genai]; nothing is executed.  [Job.fetch] takes the identifier
    up to its first colon (what follows a colon names an execution of the
    job), reads the hash of that job back and raises [NoSuchJobError] when
    there is none.  The other bookkeeping keys of rq, which no handler reads,
    are left out. *)
Definition enqueue (task_type : pystr) (payload : dict) : M pystr :=
  fun w =>
    let job_id := uuid4 (draws w) in
    let w1 := log (EEnqueue job_id) (draw w) in
    let job := {| jd_task := task_type; jd_payload := payload;
                  jd_status := Queued; jd_result := VNone |} in
    match live w1 (rq_job_key job_id), live w1 rq_queue_key with
    | (None | Some (RHash _)), None =>
        (Ok job_id,
         set_redis rq_queue_key (RList [job_id]) None
           (set_redis (rq_job_key job_id) (RHash job) None w1))
    | (None | Some (RHash _)), Some (RList q) =>
        (Ok job_id,
         set_redis rq_queue_key (RList (q ++ [job_id]))
           (redis w1 !! rq_queue_key ≫= snd)
           (set_redis (rq_job_key job_id) (RHash job) None w1))
    | _, _ => (Raise ResponseError, w1)
    end.

Definition Job_fetch (job_id : pystr) : M Job :=
  fun w =>
    let w' := log (EFetch job_id) w in
    match live w (rq_job_key (before_colon job_id)) with
    | Some (RHash j) =>
        (Ok {| Job_get_status := Ok (jd_status j); Job_result := Ok (jd_result j) |},
         w')
    | Some (RHashOther status result) =>
        (Ok {| Job_get_status := status; Job_result := result |}, w')
    | None => (Raise NoSuchJobError, w')
    | Some _ => (Raise ResponseError, w')
    end.

(** *** Core functions

    [summarize_text], [answer_question] and [rewrite_tone] are the inference
    routines, which the design treats as opaque: each fetches its pipeline
    (loading it on first use), runs it and returns the generated text, the
    first and the last stripped of surrounding white space.  A call is
    represented by what it returns or raises and by the time it takes, as
    the model says; it leaves the store alone. *)
Definition run_pipeline (c : call) : M pystr :=
  fun w =>
    let '(d, r) := model (calls_of (trace w)) c in
    (r, advance d (log (ECall c) w)).

Definition summarize_text (text max_length min_length : pyval) : M pystr :=
  run_pipeline (SummarizeText text max_length min_length).

Definition answer_question (context question : pyval) : M pystr :=
  run_pipeline (AnswerQuestion context question).

Definition rewrite_tone (text tone : pyval) : M pystr :=
  run_pipeline (RewriteTone text tone).

(** *** Synchronous endpoints *)

Definition summarize (req : SummarizeRequest) : M SyncResponse :=
  key ← lift (cache_key_for_input (sr_text req) (py "summarize") []);
  cached ← redis_get key;
  if truthy cached then
    result ← lift (Utf8.decode (bytes_of cached));
    mret {| resp_task := py "summarization"; resp_cached := true;
            resp_result := result |}
  else
    result ← summarize_text (VStr (sr_text req))
               (opt_int (sr_max_length req)) (opt_int (sr_min_length req));
    redis_setex key CACHE_TTL result;;
    mret {| resp_task := py "summarization"; resp_cached := false;
            resp_result := result |}.

Definition qa (req : QARequest) : M SyncResponse :=
  let combined_text := qa_context req ++ qa_question req in
  key ← lift (cache_key_for_input combined_text (py "qa") []);
  cached ← redis_get key;
  if truthy cached then
    result ← lift (Utf8.decode (bytes_of cached));
    mret {| resp_task := py "qa"; resp_cached := true; resp_result := result |}
  else
    result ← answer_question (VStr (qa_context req)) (VStr (qa_question req));
    redis_setex key CACHE_TTL result;;
    mret {| resp_task := py "qa"; resp_cached := false; resp_result := result |}.

Definition rewrite (req : RewriteRequest) : M SyncResponse :=
  key ← lift (cache_key_for_input (rw_text req) (py "rewrite")
                (tone_str (rw_tone req)));
  cached ← redis_get key;
  if truthy cached then
    result ← lift (Utf8.decode (bytes_of cached));
    mret {| resp_task := py "rewrite"; resp_cached := true;
            resp_result := result |}
  else
    result ← rewrite_tone (VStr (rw_text req)) (VStr (tone_str (rw_tone req)));
    redis_setex key CACHE_TTL result;;
    mret {| resp_task := py "rewrite"; resp_cached := false;
            resp_result := result |}.

(** *** Job processor, run by the rq worker *)

Definition process_genai_task (task_type : pystr) (payload : dict) : M pystr :=
  if decide (task_type = py "summarize") then
    text ← lift (getitem payload (py "text"));
    max_length ← lift (getitem payload (py "max_length"));
    min_length ← lift (getitem payload (py "min_length"));
    summarize_text text max_length min_length
  else if decide (task_type = py "qa") then
    context ← lift (getitem payload (py "context"));
    question ← lift (getitem payload (py "question"));
    answer_question context question
  else if decide (task_type = py "rewrite") then
    text ← lift (getitem payload (py "text"));
    tone ← lift (getitem payload (py "tone"));
    rewrite_tone text tone
  else raise (ValueError (py "Unknown task type: " ++ task_type)).

(** *** Job endpoints *)

Definition submit_job (task_type : TaskType) (payload : dict) : M SubmitResponse :=
  job_id ← enqueue (task_str task_type) payload;
  redis_setex (status_key job_id) 3600 (py "queued");;
  mret {| sub_job_id := job_id; sub_status := py "queued" |}.

Definition job_status (job_id : pystr) : M JobResponse :=
  fetched ← attempt (Job_fetch job_id);
  match fetched with
  | Raise _ =>
      mret {| jr_job_id := job_id; jr_status := py "unknown"; jr_result := None |}
  | Ok job =>
      status ← lift (Job_get_status job);
      mret {| jr_job_id := job_id; jr_status := status_str status;
              jr_result := None |}
  end.

Definition job_result (job_id : pystr) : M JobResponse :=
  fetched ← attempt (Job_fetch job_id);
  match fetched with
  | Raise _ => raise (HTTPException 404 (py "Job not found"))
  | Ok job =>
      status ← lift (Job_get_status job);
      if decide (status_str status = py "finished") then
        value ← lift (Job_result job);
        mret {| jr_job_id := job_id; jr_status := py "finished";
                jr_result := Some value |}
      else
        status' ← lift (Job_get_status job);
        mret {| jr_job_id := job_id; jr_status := status_str status';
                jr_result := None |}
  end.

(** *** The three synchronous endpoints as one dispatcher

    A validated request of one of the three endpoints, the handler it goes to,
    and what the handler derives from it: the task and the modifier that enter
    the cache key, the content that is hashed, the model call on a miss and
    the task name of the answer. *)
Inductive sync_request : Type :=
| Summarize (req : SummarizeRequest)
| Qa (req : QARequest)
| Rewrite (req : RewriteRequest).

Definition dispatch (r : sync_request) : M SyncResponse :=
  match r with
  | Summarize req => summarize req
  | Qa req => qa req
  | Rewrite req => rewrite req
  end.

Definition task_of (r : sync_request) : pystr :=
  match r with
  | Summarize _ => py "summarize"
  | Qa _ => py "qa"
  | Rewrite _ => py "rewrite"
  end.

Definition modifier_of (r : sync_request) : pystr :=
  match r with
  | Summarize _ | Qa _ => []
  | Rewrite req => tone_str (rw_tone req)
  end.

Definition content_of (r : sync_request) : pystr :=
  match r with
  | Summarize req => sr_text req
  | Qa req => qa_context req ++ qa_question req
  | Rewrite req => rw_text req
  end.

Definition key_of (r : sync_request) : res pystr :=
  cache_key_for_input (content_of r) (task_of r) (modifier_of r).

Definition call_of (r : sync_request) : call :=
  match r with
  | Summarize req =>
      SummarizeText (VStr (sr_text req))
        (opt_int (sr_max_length req)) (opt_int (sr_min_length req))
  | Qa req => AnswerQuestion (VStr (qa_context req)) (VStr (qa_question req))
  | Rewrite req => RewriteTone (VStr (rw_text req)) (VStr (tone_str (rw_tone req)))
  end.

Definition label_of (r : sync_request) : pystr :=
  match r with
  | Summarize _ => py "summarization"
  | Qa _ => py "qa"
  | Rewrite _ => py "rewrite"
  end.

(** What a dispatch does, spelled out on the world: the normal form of the
    three handlers, from which their properties are proved. *)
Definition dispatch_unfolded (r : sync_request) (w : world) : res SyncResponse * world :=
  match key_of r with
  | Raise e => (Raise e, w)
  | Ok key =>
      let w1 := log (EGet key) w in
      match live w key with
      | Some (RHash _) | Some (RList _) | Some (RHashOther _ _) =>
          (Raise ResponseError, w1)
      | Some (RString (b :: bs)) =>
          match Utf8.decode (b :: bs) with
          | Ok s => (Ok {| resp_task := label_of r; resp_cached := true;
                           resp_result := s |}, w1)
          | Raise e => (Raise e, w1)
          end
      | None | Some (RString []) =>
          let w2 := advance (model (calls_of (trace w)) (call_of r)).1
                      (log (ECall (call_of r)) w1) in
          match (model (calls_of (trace w)) (call_of r)).2 with
          | Raise e => (Raise e, w2)
          | Ok result =>
              match Utf8.encode result with
              | Raise e => (Raise e, w2)
              | Ok b =>
                  let w3 := log (ESetex key CACHE_TTL b) w2 in
                  if setex_refused CACHE_TTL then (Raise ResponseError, w3)
                  else (Ok {| resp_task := label_of r; resp_cached := false;
                              resp_result := result |},
                        set_redis key (RString b) (Some (clock w2 + CACHE_TTL)) w3)
              end
          end
      end
  end.

(** The same request dispatched again and again, with the seconds that pass
    before each dispatch: the answers, oldest first, and the world at the
    end. *)
Fixpoint redispatch (delays : list N) (r : sync_request) (w : world)
  : list (res SyncResponse) * world :=
  match delays with
  | [] => ([], w)
  | d :: delays' =>
      let '(out, w1) := dispatch r (advance d w) in
      let '(outs, w2) := redispatch delays' r w1 in
      (out :: outs, w2)
  end.

(** *** The HTTP boundary

    FastAPI validates the path parameters and the JSON body against the
    declared types before it calls a handler, and answers 422 when that fails.
    The check modelled here is the one the source declares: the fields that
    must be present and the type of each.  A [str] field takes a JSON string;
    an [Optional[int]] field takes an integer, [null], or what pydantic
    converts to an integer. *)

Definition as_str (v : pyval) : option pystr :=
  match v with
  | VStr s => Some s
  | _ => None
  end.

Definition as_opt_int (default : Z) (field : option pyval) : option (option Z) :=
  match field with
  | None => Some (Some default)
  | Some VNone => Some None
  | Some (VInt n) => Some (Some n)
  | Some v => n ← convert_int v; Some (Some n)
  end.

Definition parse_tone (s : pystr) : option Tone :=
  if decide (s = py "formal") then Some Formal
  else if decide (s = py "informal") then Some Informal
  else None.

Definition parse_task_type (s : pystr) : option TaskType :=
  if decide (s = py "summarize") then Some TSummarize
  else if decide (s = py "qa") then Some TQa
  else if decide (s = py "rewrite") then Some TRewrite
  else None.

Definition parse_SummarizeRequest (body : pyval) : option SummarizeRequest :=
  match body with
  | VDict d =>
      text ← dict_get d (py "text") ≫= as_str;
      max_length ← as_opt_int 150 (dict_get d (py "max_length"));
      min_length ← as_opt_int 25 (dict_get d (py "min_length"));
      Some {| sr_text := text; sr_max_length := max_length;
              sr_min_length := min_length |}
  | _ => None
  end.

Definition parse_QARequest (body : pyval) : option QARequest :=
  match body with
  | VDict d =>
      context ← dict_get d (py "context") ≫= as_str;
      question ← dict_get d (py "question") ≫= as_str;
      Some {| qa_context := context; qa_question := question |}
  | _ => None
  end.

Definition parse_RewriteRequest (body : pyval) : option RewriteRequest :=
  match body with
  | VDict d =>
      text ← dict_get d (py "text") ≫= as_str;
      tone_name ← dict_get d (py "tone") ≫= as_str;
      tone ← parse_tone tone_name;
      Some {| rw_text := text; rw_tone := tone |}
  | _ => None
  end.

Definition parse_payload (body : pyval) : option dict :=
  match body with
  | VDict d => Some d
  | _ => None
  end.

Definition validated {A} (o : option A) : M A :=
  match o with
  | Some a => mret a
  | None => raise RequestValidationError
  end.

Inductive request : Type :=
| PostSummarize (body : pyval)
| PostQa (body : pyval)
| PostRewrite (body : pyval)
| PostSubmit (task_type : pystr) (body : pyval)
| GetStatus (job_id : pystr)
| GetResult (job_id : pystr).

Inductive response : Type :=
| SyncR (r : SyncResponse)
| SubmitR (r : SubmitResponse)
| JobR (r : JobResponse).

Definition handle (r : request) : M response :=
  match r with
  | PostSummarize body =>
      req ← validated (parse_SummarizeRequest body);
      resp ← summarize req; mret (SyncR resp)
  | PostQa body =>
      req ← validated (parse_QARequest body);
      resp ← qa req; mret (SyncR resp)
  | PostRewrite body =>
      req ← validated (parse_RewriteRequest body);
      resp ← rewrite req; mret (SyncR resp)
  | PostSubmit task_type body =>
      args ← validated (t ← parse_task_type task_type;
                        payload ← parse_payload body;
                        Some (t, payload));
      resp ← submit_job args.1 args.2; mret (SubmitR resp)
  | GetStatus job_id => resp ← job_status job_id; mret (JobR resp)
  | GetResult job_id => resp ← job_result job_id; mret (JobR resp)
  end.

(** Whether a request passes validation. *)
Definition accepted (r : request) : bool :=
  match r with
  | PostSummarize body => bool_decide (is_Some (parse_SummarizeRequest body))
  | PostQa body => bool_decide (is_Some (parse_QARequest body))
  | PostRewrite body => bool_decide (is_Some (parse_RewriteRequest body))
  | PostSubmit task_type body =>
      bool_decide (is_Some (parse_task_type task_type))
      && bool_decide (is_Some (parse_payload body))
  | GetStatus _ | GetResult _ => true
  end.

(** The status code of the answer: an [HTTPException] carries its own, a
    rejected request is 422, any other exception that leaves a handler is an
    internal server error. *)
Definition http_status {A} (r : res A) : Z :=
  match r with
  | Ok _ => 200
  | Raise (HTTPException code _) => code
  | Raise RequestValidationError => 422
  | Raise _ => 500
  end.

(** A run of the service: requests in the order in which they are handled,
    with the seconds that pass before each. *)
Fixpoint serve (rs : list (N * request)) (w : world) : world :=
  match rs with
  | [] => w
  | (d, r) :: rs' => serve rs' (handle r (advance d w)).2
  end.

(** The identifiers drawn so far. *)
Definition issued (w : world) : list pystr := map uuid4 (seq 0 (draws w)).

(** The keys of rq hold what rq put there, and the identifiers are such as
    rq issues: the queue is a list, no job hash exists yet for an identifier
    that has not been drawn, and no identifier contains a colon (the text of
    a UUID has none). *)
Definition rq_consistent (w : world) : Prop :=
  match redis w !! rq_queue_key with
  | None | Some (RList _, _) => True
  | Some _ => False
  end
  /\ (forall n, (draws w <= n)%nat -> redis w !! rq_job_key (uuid4 n) = None)
  /\ (forall n, 58 ∉ uuid4 n).

End App.

(** The service at start: an empty store at time zero. *)
Definition initial : world := World ∅ 0 0 [].

(** ** A sample environment

    Models that answer every call alike, identifiers [job-1], [job-11], ...,
    and the requests of the examples in the design document. *)
Definition model_const (d : N) (out : res pystr) : list call -> call -> N * res pystr :=
  fun _ _ => (d, out).

Definition uuid4_sample (n : nat) : pystr := py "job-" ++ repeat 49 (S n).

(** A conversion to [int] for the examples: booleans only. *)
Definition convert_sample (v : pyval) : option Z :=
  match v with
  | VBool true => Some 1
  | VBool false => Some 0
  | _ => None
  end.

Definition fox : sync_request :=
  Summarize {| sr_text := py "The quick brown fox...";
               sr_max_length := Some 50; sr_min_length := Some 10 |}.

Definition fox_key : pystr :=
  py "cache:summarize::c42006f4f6e9397ed70efd189e277a6daf21b39a09deb1da4ca9dcd302d364c5".

Definition paris_payload : dict :=
  [ (py "context", VStr (py "Paris is the capital of France."));
    (py "question", VStr (py "What is the capital of France?")) ].

(** Two question-answering requests that split one text differently. *)
Definition qa_ab_c : QARequest := {| qa_context := py "ab"; qa_question := py "c" |}.
Definition qa_a_bc : QARequest := {| qa_context := py "a"; qa_question := py "bc" |}.


(** ** The pipeline registry

    [_pipelines] and [get_pipeline]: the process-local map from task names to
    loaded pipelines, filled on first use. *)

Module Pipelines.

(** A pipeline object: the library task and the model it was built from, and
    the call of [transformers.pipeline] that built it. *)
Record pipe : Type := Pipe {
  pipe_kind : pystr;
  pipe_model : pystr;
  pipe_serial : nat
}.

(** [_pipelines], and the calls of [transformers.pipeline] made so far,
    oldest first. *)
Record registry : Type := Registry {
  loaded : gmap (list Z) pipe;
  loads : list (pystr * pystr)
}.

Definition empty : registry := Registry ∅ [].

Section Loader.

(** Whether the [n]-th call of [transformers.pipeline] fails, and with what. *)
Variable pipeline_fails : nat -> pystr -> pystr -> option exn.

(** [pipeline(kind, model=name)] *)
Definition pipeline (kind name : pystr) (s : registry) : res pipe * registry :=
  let n := length (loads s) in
  let s' := Registry (loaded s) (loads s ++ [(kind, name)]) in
  match pipeline_fails n kind name with
  | Some e => (Raise e, s')
  | None => (Ok (Pipe kind name n), s')
  end.

(** [_pipelines[task] = pipeline(kind, model=name)] *)
Definition load_into (task kind name : pystr) (s : registry) : res pipe * registry :=
  match pipeline kind name s with
  | (Ok p, s') => (Ok p, Registry (<[task := p]> (loaded s')) (loads s'))
  | (Raise e, s') => (Raise e, s')
  end.

Definition get_pipeline (task : pystr) (s : registry) : res pipe * registry :=
  match loaded s !! task with
  | Some p => (Ok p, s)
  | None =>
      if decide (task = py "summarization") then
        load_into task (py "summarization") (py "sshleifer/distilbart-cnn-12-6") s
      else if decide (task = py "qa") then
        load_into task (py "question-answering")
          (py "distilbert-base-cased-distilled-squad") s
      else if decide (task = py "rewrite") then
        load_into task (py "text2text-generation") (py "google/flan-t5-small") s
      else (Raise (ValueError (py "Unsupported task: " ++ task)), s)
  end.

(** [get_pipeline] called for one task after the other, whatever each call
    returns or raises. *)
Fixpoint get_all (tasks : list pystr) (s : registry) : registry :=
  match tasks with
  | [] => s
  | task :: tasks' => get_all tasks' (get_pipeline task s).2
  end.

End Loader.

End Pipelines.

(** ** Payloads that carry a request

    A job payload has the fields of a validated request when reading each
    field the job processor asks for gives what the synchronous handler
    passes to the model. *)
Definition carries (payload : dict) (r : sync_request) : Prop :=
  match r with
  | Summarize req =>
      dict_get payload (py "text") = Some (VStr (sr_text req))
      /\ dict_get payload (py "max_length") = Some (opt_int (sr_max_length req))
      /\ dict_get payload (py "min_length") = Some (opt_int (sr_min_length req))
  | Qa req =>
      dict_get payload (py "context") = Some (VStr (qa_context req))
      /\ dict_get payload (py "question") = Some (VStr (qa_question req))
  | Rewrite req =>
      dict_get payload (py "text") = Some (VStr (rw_text req))
      /\ dict_get payload (py "tone") = Some (VStr (tone_str (rw_tone req)))
  end.

(** More of the sample environment: a run of other requests, a payload for
    [fox], a request whose text only is given. *)
Definition sample_run : list (N * request) :=
  [ (10%N, PostSubmit (py "qa") (VDict paris_payload));
    (5%N, GetStatus (py "job-1"));
    (60%N, PostQa (VDict paris_payload)) ].

Definition fox_payload : dict :=
  [ (py "text", VStr (py "The quick brown fox..."));
    (py "max_length", VInt 50);
    (py "min_length", VInt 10) ].

Definition text_only : dict := [ (py "text", VStr (py "The quick brown fox...")) ].

(** Loaders for the examples: one that never fails, one whose first call
    fails. *)
Definition never_fails : nat -> pystr -> pystr -> option exn := fun _ _ _ => None.

Definition first_load_fails : nat -> pystr -> pystr -> option exn :=
  fun n _ _ => if (n =? 0)%nat then Some (PipelineError 7) else None.

(** ** The digest on known inputs *)

Example round_constants :
  length Sha256.K = 64%nat
  /\ nth 0 Sha256.K 0 = 0x428a2f98 /\ nth 63 Sha256.K 0 = 0xc67178f2
  /\ Sha256.sa Sha256.H0 = 0x6a09e667 /\ Sha256.sh Sha256.H0 = 0x5be0cd19.
Proof. vm_compute. repeat split. Qed.

Example sha256_text_empty :
  sha256_text []
  = Ok (py "e3b0c44298fc1c149afbf4c8996fb92427ae41e4649b934ca495991b7852b855").
Proof. vm_compute. reflexivity. Qed.

Example sha256_text_abc :
  sha256_text (py "abc")
  = Ok (py "ba7816bf8f01cfea414140de5dae2223b00361a396177a9cb410ff61f20015ad").
Proof. vm_compute. reflexivity. Qed.

Example sha256_text_two_blocks :
  sha256_text (py "abcdbcdecdefdefgefghfghighijhijkijkljklmklmnlmnomnopnopq")
  = Ok (py "248d6a61d20638b8e5c026930c3e6039a33ce45964ff2167f6ecedd419db06c1").
Proof. vm_compute. reflexivity. Qed.

Example sha256_text_non_ascii :
  sha256_text [104; 0x20AC; 108; 108; 111; 32; 0x1F600]
  = Ok (py "d2773058734e654792af76e2f7d0a59326dc5b92097289c862c4b3eb68dc7dc8").
Proof. vm_compute. reflexivity. Qed.

Example sha256_text_pad_boundary :
  sha256_text (repeat 97 55)
  = Ok (py "9f4390f8d30c2dd92ec9f095b65e2b9ae9b0a925a5258e241c9f1e910f734318")
  /\ sha256_text (repeat 97 56)
  = Ok (py "b35439a4ac6f0948b6d6f9e3c6af0f5f590ce20f1bde7090ef7970686ec6738a")
  /\ sha256_text (repeat 97 64)
  = Ok (py "ffe054fe7ae0cb6dc65c3af9b61d5209f439851db43d0ba5997337df154668eb").
Proof. vm_compute. repeat split. Qed.

Example sha256_text_lone_surrogate :
  sha256_text [0x61; 0xD800] = Raise UnicodeEncodeError.
Proof. reflexivity. Qed.

(** * Properties *)

(** ** UTF-8: decoding undoes encoding *)

Section Utf8Facts.
Import Utf8.

Local Ltac decide_tests :=
  repeat (
    cbn [andb negb];
    match goal with
    | |- context [?a <=? ?b] =>
        destruct (Z.leb_spec a b);
        try (exfalso; Z.div_mod_to_equations; lia)
    | |- context [?a <? ?b] =>
        destruct (Z.ltb_spec a b);
        try (exfalso; Z.div_mod_to_equations; lia)
    end).

Lemma decode_encode_cp (c : Z) (b rest : list Z) :
  encode_cp c = Some b ->
  decode_opt (b ++ rest) = cons_opt c (decode_opt rest).
Proof.
  unfold encode_cp, is_surrogate.
  destruct (Z.ltb_spec c 0); [discriminate|].
  destruct (Z.ltb_spec c 0x80).
  { intros [= <-]. cbn [app decode_opt]. decide_tests. reflexivity. }
  destruct (Z.ltb_spec c 0x800).
  { intros [= <-]. cbn [app decode_opt]. unfold is_cont. decide_tests.
    f_equal. Z.div_mod_to_equations; lia. }
  destruct (Z.ltb_spec c 0x10000).
  { destruct (Z.leb_spec 0xD800 c); destruct (Z.leb_spec c 0xDFFF);
      cbn [andb]; try discriminate.
    all: intros [= <-]; cbn [app decode_opt]; cbn zeta.
    all: replace ((0xE0 + c / 4096 - 0xE0) * 4096
               + (0x80 + (c / 64) mod 64 - 0x80) * 64
               + (0x80 + c mod 64 - 0x80)) with c
        by (Z.div_mod_to_equations; lia).
    all: unfold is_cont, is_surrogate; decide_tests; reflexivity. }
  destruct (Z.ltb_spec c 0x110000); [|discriminate].
  intros [= <-]. cbn [app decode_opt]; cbn zeta.
  replace ((0xF0 + c / 262144 - 0xF0) * 262144
           + (0x80 + (c / 4096) mod 64 - 0x80) * 4096
           + (0x80 + (c / 64) mod 64 - 0x80) * 64
           + (0x80 + c mod 64 - 0x80)) with c
    by (Z.div_mod_to_equations; lia).
  unfold is_cont; decide_tests; reflexivity.
Qed.

Lemma decode_encode_opt (s : list Z) (b : list Z) :
  encode_opt s = Some b -> decode_opt b = Some s.
Proof.
  revert b. induction s as [|c s IH]; intros b; cbn [encode_opt].
  - intros [= <-]. reflexivity.
  - destruct (encode_cp c) as [bc|] eqn:Hc; [|discriminate].
    destruct (encode_opt s) as [bs|]; [|discriminate].
    intros [= <-]. rewrite (decode_encode_cp _ _ _ Hc), (IH bs eq_refl).
    reflexivity.
Qed.

Lemma decode_encode (s : list Z) (b : list Z) :
  encode s = Ok b -> decode b = Ok s.
Proof.
  unfold encode, decode. destruct (encode_opt s) as [b'|] eqn:E; [|discriminate].
  intros [= <-]. rewrite (decode_encode_opt _ _ E). reflexivity.
Qed.

Lemma encode_cp_nonempty (c : Z) (b : list Z) :
  encode_cp c = Some b -> b <> [].
Proof.
  unfold encode_cp.
  repeat match goal with
         | |- context [if ?t then _ else _] => destruct t
         end; intros [= <-]; discriminate.
Qed.

(** Only the empty string encodes to no octets at all. *)
Lemma encode_nil (s : list Z) : encode s = Ok [] -> s = [].
Proof.
  unfold encode. destruct s as [|c s]; [reflexivity|]. cbn [encode_opt].
  destruct (encode_cp c) as [bc|] eqn:Hc; [|discriminate].
  destruct (encode_opt s) as [bs|]; [|discriminate].
  intros [= H]. apply app_eq_nil in H as [H _].
  by apply encode_cp_nonempty in Hc.
Qed.

Lemma encode_opt_app (s t : list Z) :
  encode_opt (s ++ t) =
  match encode_opt s, encode_opt t with
  | Some a, Some b => Some (a ++ b)
  | _, _ => None
  end.
Proof.
  induction s as [|c s IH]; cbn [app encode_opt].
  - destruct (encode_opt t); reflexivity.
  - rewrite IH. destruct (encode_cp c), (encode_opt s), (encode_opt t);
      try reflexivity. by rewrite app_assoc.
Qed.

End Utf8Facts.

(** ** The store's limits, identifiers *)

Lemma setex_accepted (ttl : Z) :
  0 < ttl <= LLONG_MAX / 1000 -> setex_refused ttl = false.
Proof.
  intros [H1 H2]. unfold setex_refused.
  destruct (Z.leb_spec ttl 0); [lia|].
  destruct (Z.ltb_spec (LLONG_MAX / 1000) ttl); [lia|done].
Qed.

Lemma setex_refused_nonpositive (ttl : Z) : ttl <= 0 -> setex_refused ttl = true.
Proof. intros H. unfold setex_refused. by destruct (Z.leb_spec ttl 0); [|lia]. Qed.

Lemma setex_refused_large (ttl : Z) :
  LLONG_MAX / 1000 < ttl -> setex_refused ttl = true.
Proof.
  intros H. unfold setex_refused.
  destruct (Z.ltb_spec (LLONG_MAX / 1000) ttl); [|lia]. apply orb_true_r.
Qed.

Lemma setex_3600 : setex_refused 3600 = false.
Proof. reflexivity. Qed.

Lemma before_colon_id (s : list Z) : 58 ∉ s -> before_colon s = s.
Proof.
  induction s as [|c s IH]; [done|]. intros [Hc Hs]%not_elem_of_cons.
  cbn [before_colon]. destruct (Z.eqb_spec c 58); [done|]. by rewrite IH.
Qed.

Lemma before_colon_app (s t : list Z) :
  58 ∉ s -> before_colon (s ++ 58 :: t) = s.
Proof.
  induction s as [|c s IH]; [done|]. intros [Hc Hs]%not_elem_of_cons.
  cbn [app before_colon]. destruct (Z.eqb_spec c 58); [done|]. by rewrite IH.
Qed.

(** ** Traces *)

Lemma calls_of_app (t u : list event) : calls_of (t ++ u) = calls_of t ++ calls_of u.
Proof.
  induction t as [|e t IH]; [reflexivity|].
  destruct e; cbn [app calls_of]; rewrite IH; reflexivity.
Qed.

Lemma writes_of_app (t u : list event) : writes_of (t ++ u) = writes_of t ++ writes_of u.
Proof.
  induction t as [|e t IH]; [reflexivity|].
  destruct e; cbn [app writes_of]; rewrite IH; reflexivity.
Qed.

(** ** The synchronous dispatcher, case by case *)

Section Dispatch.

Variable model : list call -> call -> N * res (list Z).
Variable CACHE_TTL : Z.

Lemma dispatch_eq (r : sync_request) (w : world) :
  dispatch model CACHE_TTL r w = dispatch_unfolded model CACHE_TTL r w.
Proof.
  unfold dispatch_unfolded, key_of.
  destruct r as [req|req|req]; cbn [dispatch content_of task_of modifier_of];
    unfold summarize, qa, rewrite, summarize_text, answer_question, rewrite_tone;
    unfold mbind, M_bind, mret, M_ret, lift.
  all: match goal with
       | |- context [cache_key_for_input ?a ?b ?c] =>
           destruct (cache_key_for_input a b c) as [key|e]; [|reflexivity]
       end.
  all: unfold redis_get.
  all: destruct (live w key) as [[[|b bs]|j|l|st rs]|]; cbn [truthy bytes_of default];
       try reflexivity.
  all: try (destruct (Utf8.decode (b :: bs)); reflexivity).
  all: unfold run_pipeline; cbn [trace log]; rewrite calls_of_app, app_nil_r;
       cbn [call_of label_of];
       match goal with
       | |- context [model ?h ?c] => destruct (model h c) as [d [result|e]]
       end; cbn [fst snd]; try reflexivity.
  all: unfold redis_setex; destruct (Utf8.encode result); [|reflexivity].
  all: cbn [clock advance log]; destruct (setex_refused CACHE_TTL); reflexivity.
Qed.

End Dispatch.

(** ** Keys *)

Lemma cache_key_eq (text task extra : list Z) (b : list Z) :
  Utf8.encode text = Ok b ->
  cache_key_for_input text task extra
  = Ok (py "cache:" ++ task ++ py ":" ++ extra ++ py ":" ++ Sha256.hexdigest b).
Proof. unfold cache_key_for_input, sha256_text. by intros ->. Qed.

Lemma cache_key_prefix (text task extra key : list Z) :
  cache_key_for_input text task extra = Ok key -> py "cache:" `prefix_of` key.
Proof.
  unfold cache_key_for_input. destruct (sha256_text text); [|discriminate].
  intros [= <-]. by eexists.
Qed.

(** The keys of the cache, the keys of rq and the status records live in
    different parts of the keyspace. *)
Lemma cache_key_not_rq_job (key job_id : list Z) :
  py "cache:" `prefix_of` key -> key <> rq_job_key job_id.
Proof. intros [rest ->] H. vm_compute in H. discriminate. Qed.

Lemma cache_key_not_rq_queue (key : list Z) :
  py "cache:" `prefix_of` key -> key <> rq_queue_key.
Proof. intros [rest ->] H. vm_compute in H. discriminate. Qed.

Lemma cache_key_not_status (key job_id : list Z) :
  py "cache:" `prefix_of` key -> key <> status_key job_id.
Proof. intros [rest ->] H. vm_compute in H. discriminate. Qed.

Lemma status_key_not_rq_job (a b : list Z) : status_key a <> rq_job_key b.
Proof. intros H. vm_compute in H. discriminate. Qed.

Lemma status_key_not_rq_queue (a : list Z) : status_key a <> rq_queue_key.
Proof. intros H. vm_compute in H. discriminate. Qed.

Lemma rq_job_key_not_queue (a : list Z) : rq_job_key a <> rq_queue_key.
Proof. intros H. vm_compute in H. discriminate. Qed.

Lemma rq_job_key_inj (a b : list Z) : rq_job_key a = rq_job_key b -> a = b.
Proof. unfold rq_job_key. apply app_inv_head. Qed.

(** The digest is sixty-four lower-case hexadecimal digits. *)
Lemma hex_digit_is_hex (n : Z) : 0 <= n < 16 -> is_hex (Sha256.hex_digit n).
Proof.
  unfold Sha256.hex_digit, is_hex. intros H.
  destruct (Z.ltb_spec n 10); lia.
Qed.

Lemma hex8_is_hex (w : Z) : Forall is_hex (Sha256.hex8 w).
Proof.
  unfold Sha256.hex8.
  repeat (apply Forall_cons; split;
          [apply hex_digit_is_hex; apply Z.mod_pos_bound; lia|]).
  apply Forall_nil. done.
Qed.

Lemma hexdigest_length (b : list Z) : length (Sha256.hexdigest b) = 64%nat.
Proof. reflexivity. Qed.

Lemma hexdigest_is_hex (b : list Z) : Forall is_hex (Sha256.hexdigest b).
Proof.
  unfold Sha256.hexdigest, Sha256.hex_state.
  repeat (apply Forall_app; split; [apply hex8_is_hex|]). apply hex8_is_hex.
Qed.

(** Two keys for one task and one modifier are equal exactly when the digests
    of the two contents are. *)
Lemma cache_key_eq_iff (task extra c1 c2 : list Z) :
  cache_key_for_input c1 task extra = cache_key_for_input c2 task extra
  <-> sha256_text c1 = sha256_text c2.
Proof.
  unfold cache_key_for_input. split; [|by intros ->].
  destruct (sha256_text c1) as [d1|e1], (sha256_text c2) as [d2|e2];
    cbn [res_bind]; try discriminate.
  - intros H.
    assert (py "cache:" ++ task ++ py ":" ++ extra ++ py ":" ++ d1
            = py "cache:" ++ task ++ py ":" ++ extra ++ py ":" ++ d2) as E
      by congruence.
    do 5 apply app_inv_head in E. by subst.
  - by intros [= ->].
Qed.

(** ** The rendering of the digest loses nothing *)

Lemma add32_word (x y : Z) : word32 (Sha256.add32 x y).
Proof. unfold word32, Sha256.add32. apply Z.mod_pos_bound. lia. Qed.

Lemma compress_words (h : Sha256.state) (block : list Z) :
  words32 (Sha256.compress h block).
Proof.
  unfold Sha256.compress, words32.
  cbn [Sha256.sa Sha256.sb Sha256.sc Sha256.sd Sha256.se Sha256.sf Sha256.sg Sha256.sh].
  repeat split; apply add32_word.
Qed.

Lemma H0_words : words32 Sha256.H0.
Proof. unfold words32, word32. vm_compute. repeat split; discriminate. Qed.

Lemma digest_words (msg : list Z) : words32 (Sha256.digest msg).
Proof.
  unfold Sha256.digest. cbn zeta.
  generalize (Sha256.chunks (length (Sha256.pad msg) / 64) 64 (Sha256.pad msg)).
  intros l. destruct l as [|b l] using rev_ind.
  - exact H0_words.
  - rewrite fold_left_app. cbn [fold_left]. apply compress_words.
Qed.

Lemma hex_digit_inj (m n : Z) :
  0 <= m < 16 -> 0 <= n < 16 -> Sha256.hex_digit m = Sha256.hex_digit n -> m = n.
Proof.
  unfold Sha256.hex_digit. intros Hm Hn.
  destruct (Z.ltb_spec m 10), (Z.ltb_spec n 10); lia.
Qed.

Lemma div16_eq (a b : Z) : a / 16 = b / 16 -> a mod 16 = b mod 16 -> a = b.
Proof. intros H1 H2. rewrite (Z.div_mod a 16), (Z.div_mod b 16) by lia. congruence. Qed.

Lemma hex8_inj (x y : Z) : word32 x -> word32 y -> Sha256.hex8 x = Sha256.hex8 y -> x = y.
Proof.
  unfold word32, Sha256.hex8. intros Hx Hy H.
  injection H as H7 H6 H5 H4 H3 H2 H1 H0.
  apply hex_digit_inj in H0, H1, H2, H3, H4, H5, H6, H7;
    try (apply Z.mod_pos_bound; lia).
  assert (forall z, 0 <= z < 2 ^ 32 -> z / 2 ^ 28 mod 16 = z / 2 ^ 28) as Htop.
  { intros z Hz. apply Z.mod_small. split; [apply Z.div_pos; lia|].
    apply Z.div_lt_upper_bound; [lia|]. change (2 ^ 28 * 16) with (2 ^ 32). lia. }
  rewrite !Htop in H7 by done.
  assert (forall k z, 0 < k -> z / (k * 16) = z / k / 16) as Hdd
    by (intros k z Hk; rewrite Z.div_div by lia; reflexivity).
  assert (x / 2 ^ 24 = y / 2 ^ 24) as E24
    by (apply div16_eq; [rewrite <- !Hdd by lia; exact H7|exact H6]).
  assert (x / 2 ^ 20 = y / 2 ^ 20) as E20
    by (apply div16_eq; [rewrite <- !Hdd by lia; exact E24|exact H5]).
  assert (x / 2 ^ 16 = y / 2 ^ 16) as E16
    by (apply div16_eq; [rewrite <- !Hdd by lia; exact E20|exact H4]).
  assert (x / 2 ^ 12 = y / 2 ^ 12) as E12
    by (apply div16_eq; [rewrite <- !Hdd by lia; exact E16|exact H3]).
  assert (x / 2 ^ 8 = y / 2 ^ 8) as E8
    by (apply div16_eq; [rewrite <- !Hdd by lia; exact E12|exact H2]).
  assert (x / 2 ^ 4 = y / 2 ^ 4) as E4
    by (apply div16_eq; [rewrite <- !Hdd by lia; exact E8|exact H1]).
  apply div16_eq; [exact E4|exact H0].
Qed.

Lemma hex_state_inj (s t : Sha256.state) :
  words32 s -> words32 t -> Sha256.hex_state s = Sha256.hex_state t -> s = t.
Proof.
  destruct s as [a b c d e f g h], t as [a' b' c' d' e' f' g' h'].
  unfold words32, Sha256.hex_state.
  cbn [Sha256.sa Sha256.sb Sha256.sc Sha256.sd Sha256.se Sha256.sf Sha256.sg Sha256.sh].
  intros (Ha & Hb & Hc & Hd & He & Hf & Hg & Hh)
         (Ha' & Hb' & Hc' & Hd' & He' & Hf' & Hg' & Hh') H.
  repeat (apply app_inj_1 in H as [?%hex8_inj H]; [|done..]).
  apply hex8_inj in H; [|done..]. by subst.
Qed.

Lemma hexdigest_inj (b1 b2 : list Z) :
  Sha256.hexdigest b1 = Sha256.hexdigest b2 -> Sha256.digest b1 = Sha256.digest b2.
Proof. apply hex_state_inj; apply digest_words. Qed.

Lemma encode_inj (c1 c2 b : list Z) :
  Utf8.encode c1 = Ok b -> Utf8.encode c2 = Ok b -> c1 = c2.
Proof.
  intros H1%decode_encode H2%decode_encode. congruence.
Qed.

(** ** The store under the handlers *)

Lemma live_log (e : event) (w : world) (k : list Z) : live (log e w) k = live w k.
Proof. reflexivity. Qed.

(** A key that is not live stays so while the store is untouched and time
    moves on. *)
Lemma live_none_later (w w' : world) (k : list Z) :
  redis w' = redis w -> clock w <= clock w' -> live w k = None -> live w' k = None.
Proof.
  unfold live. intros -> Hc. destruct (redis w !! k) as [[v [e|]]|]; try done.
  destruct (Z.ltb_spec (clock w) e); [done|].
  destruct (Z.ltb_spec (clock w') e); [lia|done].
Qed.

Lemma live_entry (w : world) (k : list Z) (v : rvalue) (e : Z) :
  redis w !! k = Some (v, Some e) -> clock w < e -> live w k = Some v.
Proof.
  unfold live. intros -> H. destruct (Z.ltb_spec (clock w) e); [done|lia].
Qed.

Section DispatchFacts.

Variable model : list call -> call -> N * res (list Z).
Variable CACHE_TTL : Z.

Lemma dispatch_hit (r : sync_request) (w : world) (key b s : list Z) :
  key_of r = Ok key ->
  live w key = Some (RString b) -> b <> [] -> Utf8.decode b = Ok s ->
  dispatch model CACHE_TTL r w
  = (Ok {| resp_task := label_of r; resp_cached := true; resp_result := s |},
     log (EGet key) w).
Proof.
  intros Hk Hl Hb Hd. rewrite dispatch_eq. unfold dispatch_unfolded.
  rewrite Hk, Hl. destruct b as [|b0 bs]; [done|]. by rewrite Hd.
Qed.

Lemma dispatch_miss_ok (r : sync_request) (w : world) (key result b : list Z) (d : N) :
  key_of r = Ok key ->
  live w key = None \/ live w key = Some (RString []) ->
  model (calls_of (trace w)) (call_of r) = (d, Ok result) ->
  Utf8.encode result = Ok b ->
  setex_refused CACHE_TTL = false ->
  dispatch model CACHE_TTL r w
  = (Ok {| resp_task := label_of r; resp_cached := false; resp_result := result |},
     World (<[key := (RString b, Some (clock w + Z.of_N d + CACHE_TTL))]> (redis w))
           (clock w + Z.of_N d) (draws w)
           (trace w ++ [EGet key; ECall (call_of r); ESetex key CACHE_TTL b])).
Proof.
  intros Hk Hl Hm He Ht. rewrite dispatch_eq. unfold dispatch_unfolded.
  rewrite Hk, Hm. cbn [fst snd]. rewrite He, Ht.
  destruct Hl as [-> | ->]; unfold set_redis, log, advance; cbn;
    by rewrite <- !app_assoc.
Qed.

Lemma dispatch_miss_raise (r : sync_request) (w : world) (key : list Z) (d : N) (e : exn) :
  key_of r = Ok key ->
  live w key = None \/ live w key = Some (RString []) ->
  model (calls_of (trace w)) (call_of r) = (d, Raise e) ->
  dispatch model CACHE_TTL r w
  = (Raise e,
     World (redis w) (clock w + Z.of_N d) (draws w)
           (trace w ++ [EGet key; ECall (call_of r)])).
Proof.
  intros Hk Hl Hm. rewrite dispatch_eq. unfold dispatch_unfolded.
  rewrite Hk, Hm. cbn [fst snd].
  destruct Hl as [-> | ->]; unfold log, advance; cbn; by rewrite <- !app_assoc.
Qed.

Lemma dispatch_clock (r : sync_request) (w : world) :
  clock w <= clock (dispatch model CACHE_TTL r w).2.
Proof.
  rewrite dispatch_eq. unfold dispatch_unfolded.
  destruct (key_of r) as [key|]; [|done]. cbn zeta.
  destruct (model (calls_of (trace w)) (call_of r)) as [d out]. cbn [fst snd].
  destruct (live w key) as [[[|b bs]|j|l|st rs]|]; cbn; try done.
  all: try (destruct (Utf8.decode (b :: bs)); cbn; done).
  all: destruct out as [result|]; [|cbn; lia].
  all: destruct (Utf8.encode result); [|cbn; lia].
  all: destruct (setex_refused CACHE_TTL); cbn; lia.
Qed.

(** A dispatch leaves every key but its own as it was. *)
Lemma dispatch_other_keys (r : sync_request) (w : world) (k : list Z) :
  key_of r <> Ok k ->
  redis (dispatch model CACHE_TTL r w).2 !! k = redis w !! k.
Proof.
  intros Hk. rewrite dispatch_eq. unfold dispatch_unfolded.
  destruct (key_of r) as [key|]; [|done]. cbn zeta.
  assert (key <> k) by congruence.
  destruct (model (calls_of (trace w)) (call_of r)) as [d out]. cbn [fst snd].
  destruct (live w key) as [[[|b bs]|j|l|st rs]|]; cbn; try done.
  all: try (destruct (Utf8.decode (b :: bs)); cbn; done).
  all: destruct out as [result|]; [|done].
  all: destruct (Utf8.encode result); [|done].
  all: destruct (setex_refused CACHE_TTL); cbn; [done|].
  all: by rewrite lookup_insert_ne.
Qed.

(** A live entry that is not empty survives any dispatch. *)
Lemma dispatch_keeps_entry (r : sync_request) (w : world) (k b : list Z) (e : Z) :
  redis w !! k = Some (RString b, Some e) -> b <> [] -> clock w < e ->
  redis (dispatch model CACHE_TTL r w).2 !! k = Some (RString b, Some e).
Proof.
  intros Hk Hb Hc.
  assert (key_of r = Ok k \/ key_of r <> Ok k) as [Heq|Hne].
  { destruct (key_of r) as [key|]; [|by right].
    destruct (decide (key = k)) as [->|]; [by left|right; congruence]. }
  - pose proof (live_entry _ _ _ _ Hk Hc) as Hl.
    rewrite dispatch_eq. unfold dispatch_unfolded. rewrite Heq, Hl.
    destruct b as [|b0 bs]; [done|]. by destruct (Utf8.decode (b0 :: bs)).
  - by rewrite dispatch_other_keys.
Qed.

End DispatchFacts.

(** ** Job submission and job lookup *)

Lemma encode_queued : Utf8.encode (py "queued") = Ok (py "queued").
Proof. reflexivity. Qed.

Section JobFacts.

Variable model : list call -> call -> N * res (list Z).
Variable uuid4 : nat -> list Z.
Variable CACHE_TTL : Z.
Variable convert_int : pyval -> option Z.

(** What a submission does to a consistent store. *)
Lemma submit_job_ok (t : TaskType) (payload : list (list Z * pyval)) (w : world) :
  rq_consistent uuid4 w ->
  let job_id := uuid4 (draws w) in
  let job := {| jd_task := task_str t; jd_payload := payload;
                jd_status := Queued; jd_result := VNone |} in
  exists w',
    submit_job uuid4 t payload w
    = (Ok {| sub_job_id := job_id; sub_status := py "queued" |}, w')
    /\ live w' (rq_job_key job_id) = Some (RHash job)
    /\ pending w' = pending w ++ [job_id]
    /\ (exists e, redis w' !! rq_queue_key = Some (RList (pending w'), e))
    /\ redis w' !! status_key job_id
       = Some (RString (py "queued"), Some (clock w + 3600))
    /\ trace w' = trace w ++ [EEnqueue job_id;
                              ESetex (status_key job_id) 3600 (py "queued")]
    /\ clock w' = clock w
    /\ draws w' = S (draws w)
    /\ (forall k, k <> rq_job_key job_id -> k <> rq_queue_key ->
                  k <> status_key job_id -> redis w' !! k = redis w !! k).
Proof.
  intros (Hq & Hfresh & _) job_id job.
  pose proof (Hfresh (draws w) (le_n _)) as Hj. fold job_id in Hj.
  unfold submit_job, enqueue, mbind, M_bind, mret, M_ret, redis_setex.
  fold job_id. fold job. rewrite encode_queued, setex_3600.
  unfold live at 1. cbn [redis log draw clock]. rewrite Hj.
  assert (forall q e,
    let w' := World (<[status_key job_id := (RString (py "queued"), Some (clock w + 3600))]>
                       (<[rq_queue_key := (RList q, e)]>
                          (<[rq_job_key job_id := (RHash job, None)]> (redis w))))
                (clock w) (S (draws w))
                ((trace w ++ [EEnqueue job_id])
                   ++ [ESetex (status_key job_id) 3600 (py "queued")]) in
    (match e with Some x => clock w < x | None => True end) ->
    q = pending w ++ [job_id] ->
    live w' (rq_job_key job_id) = Some (RHash job)
    /\ pending w' = pending w ++ [job_id]
    /\ (exists e, redis w' !! rq_queue_key = Some (RList (pending w'), e))
    /\ redis w' !! status_key job_id
       = Some (RString (py "queued"), Some (clock w + 3600))
    /\ trace w' = trace w ++ [EEnqueue job_id;
                              ESetex (status_key job_id) 3600 (py "queued")]
    /\ clock w' = clock w
    /\ draws w' = S (draws w)
    /\ (forall k, k <> rq_job_key job_id -> k <> rq_queue_key ->
                  k <> status_key job_id -> redis w' !! k = redis w !! k)) as Hall.
  { intros q e w' He ->. subst w'.
    assert (pending
              (World (<[status_key job_id := (RString (py "queued"), Some (clock w + 3600))]>
                        (<[rq_queue_key := (RList (pending w ++ [job_id]), e)]>
                           (<[rq_job_key job_id := (RHash job, None)]> (redis w))))
                     (clock w) (S (draws w))
                     ((trace w ++ [EEnqueue job_id])
                        ++ [ESetex (status_key job_id) 3600 (py "queued")]))
            = pending w ++ [job_id]) as Hp.
    { unfold pending at 1, live at 1; cbn [redis clock].
      rewrite lookup_insert_ne by apply status_key_not_rq_queue.
      rewrite lookup_insert_eq. destruct e as [x|]; [|done].
      by destruct (Z.ltb_spec (clock w) x); [|lia]. }
    split; [|split; [exact Hp|split; [|repeat split]]]; cbn [redis clock draws trace].
    - unfold live; cbn [redis clock].
      rewrite lookup_insert_ne by apply status_key_not_rq_job.
      rewrite lookup_insert_ne by (apply not_eq_sym, rq_job_key_not_queue).
      by rewrite lookup_insert_eq.
    - exists e. rewrite Hp.
      rewrite lookup_insert_ne by apply status_key_not_rq_queue.
      by rewrite lookup_insert_eq.
    - by rewrite lookup_insert_eq.
    - by rewrite <- app_assoc.
    - intros k H1 H2 H3. by rewrite !lookup_insert_ne. }
  unfold live, pending, live in *. cbn [redis log draw clock trace draws] in *.
  destruct (redis w !! rq_queue_key) as [[[b|j|q|st rs] [e|]]|] eqn:Eq; try done.
  - destruct (Z.ltb_spec (clock w) e).
    + eexists; split; [reflexivity|]. cbn [mbind option_bind snd].
      by apply Hall.
    + eexists; split; [reflexivity|]. by apply (Hall _ None).
  - eexists; split; [reflexivity|]. cbn [mbind option_bind snd].
    by apply (Hall _ None).
  - eexists; split; [reflexivity|]. by apply (Hall _ None).
Qed.

Lemma Job_fetch_world (job_id : list Z) (w : world) :
  (Job_fetch job_id w).2 = log (EFetch job_id) w.
Proof.
  unfold Job_fetch. by destruct (live w (rq_job_key (before_colon job_id))) as [[]|].
Qed.

Lemma Job_fetch_none (job_id : list Z) (w : world) :
  live w (rq_job_key (before_colon job_id)) = None ->
  (Job_fetch job_id w).1 = Raise NoSuchJobError.
Proof. intros H. unfold Job_fetch. by rewrite H. Qed.

Lemma job_status_fetch_raises (job_id : list Z) (e : exn) (w : world) :
  (Job_fetch job_id w).1 = Raise e ->
  job_status job_id w
  = (Ok {| jr_job_id := job_id; jr_status := py "unknown"; jr_result := None |},
     log (EFetch job_id) w).
Proof.
  intros H. pose proof (Job_fetch_world job_id w) as Hw.
  unfold job_status, mbind, M_bind, attempt.
  destruct (Job_fetch job_id w) as [out w']. cbn [fst snd] in *. by subst.
Qed.

Lemma job_result_fetch_raises (job_id : list Z) (e : exn) (w : world) :
  (Job_fetch job_id w).1 = Raise e ->
  job_result job_id w
  = (Raise (HTTPException 404 (py "Job not found")), log (EFetch job_id) w).
Proof.
  intros H. pose proof (Job_fetch_world job_id w) as Hw.
  unfold job_result, mbind, M_bind, attempt.
  destruct (Job_fetch job_id w) as [out w']. cbn [fst snd] in *. by subst.
Qed.

Lemma job_status_found (job_id : list Z) (j : job_data) (w : world) :
  live w (rq_job_key (before_colon job_id)) = Some (RHash j) ->
  job_status job_id w
  = (Ok {| jr_job_id := job_id; jr_status := status_str (jd_status j);
           jr_result := None |},
     log (EFetch job_id) w).
Proof. intros H. unfold job_status, mbind, M_bind, attempt, Job_fetch. by rewrite H. Qed.

Lemma job_status_world (job_id : list Z) (w : world) :
  (job_status job_id w).2 = log (EFetch job_id) w.
Proof.
  unfold job_status, mbind, M_bind, attempt, Job_fetch, lift.
  destruct (live w (rq_job_key (before_colon job_id))) as [[b|j|l|[st|e] rs]|];
    done.
Qed.

Lemma job_result_world (job_id : list Z) (w : world) :
  (job_result job_id w).2 = log (EFetch job_id) w.
Proof.
  unfold job_result, mbind, M_bind, attempt, Job_fetch, lift.
  destruct (live w (rq_job_key (before_colon job_id))) as [[b|j|l|[st|e] [v|e']]|];
    cbn [Job_get_status Job_result]; try done; by destruct (decide _).
Qed.

(** What a request can do to the world: nothing when it is rejected, what
    the dispatcher or the submission does, or a look at a job. *)
Lemma handle_cases (r : request) (w : world) :
  handle model uuid4 CACHE_TTL convert_int r w = (Raise RequestValidationError, w)
  \/ (exists sr, (handle model uuid4 CACHE_TTL convert_int r w).2
                 = (dispatch model CACHE_TTL sr w).2)
  \/ (exists t p, (handle model uuid4 CACHE_TTL convert_int r w).2 = (submit_job uuid4 t p w).2)
  \/ (exists job_id, (handle model uuid4 CACHE_TTL convert_int r w).2 = log (EFetch job_id) w).
Proof.
  destruct r as [body|body|body|task_type body|job_id|job_id]; cbn [handle].
  - destruct (parse_SummarizeRequest convert_int body) as [req|]; [|by left].
    right; left. exists (Summarize req). cbn [validated dispatch].
    unfold mbind, M_bind, mret, M_ret. by destruct (summarize _ _ req w) as [[]].
  - destruct (parse_QARequest body) as [req|]; [|by left].
    right; left. exists (Qa req). cbn [validated dispatch].
    unfold mbind, M_bind, mret, M_ret. by destruct (qa _ _ req w) as [[]].
  - destruct (parse_RewriteRequest body) as [req|]; [|by left].
    right; left. exists (Rewrite req). cbn [validated dispatch].
    unfold mbind, M_bind, mret, M_ret. by destruct (rewrite _ _ req w) as [[]].
  - destruct (parse_task_type task_type) as [t|]; [|by left].
    destruct (parse_payload body) as [payload|]; [|by left].
    right; right; left. exists t, payload.
    unfold validated, mbind, option_bind, M_bind; unfold mret, M_ret; cbn [fst snd].
    by destruct (submit_job uuid4 t payload w) as [[]].
  - right; right; right. exists job_id. rewrite <- job_status_world.
    unfold mbind, M_bind, mret, M_ret. by destruct (job_status job_id w) as [[]].
  - right; right; right. exists job_id. rewrite <- job_result_world.
    unfold mbind, M_bind, mret, M_ret. by destruct (job_result job_id w) as [[]].
Qed.

End JobFacts.

(** ** Runs of the service *)

Section ServeFacts.

Variable model : list call -> call -> N * res (list Z).
Variable uuid4 : nat -> list Z.
Variable CACHE_TTL : Z.
Variable convert_int : pyval -> option Z.

(** A submission takes no time and stays out of the cache. *)
Lemma submit_job_frame (t : TaskType) (payload : list (list Z * pyval)) (w : world) :
  clock (submit_job uuid4 t payload w).2 = clock w
  /\ forall k, py "cache:" `prefix_of` k ->
               redis (submit_job uuid4 t payload w).2 !! k = redis w !! k.
Proof.
  unfold submit_job, enqueue, mbind, M_bind, mret, M_ret, redis_setex.
  rewrite encode_queued, setex_3600.
  set (job_id := uuid4 (draws w)).
  destruct (live (log (EEnqueue job_id) (draw w)) (rq_job_key job_id))
    as [[b|j|l|st rs]|];
    destruct (live (log (EEnqueue job_id) (draw w)) rq_queue_key)
      as [[b'|j'|l'|st' rs']|];
    cbn; (split; [done|]); try done.
  all: intros k Hk; rewrite !lookup_insert_ne; try done.
  all: apply not_eq_sym;
    first [by apply cache_key_not_status | by apply cache_key_not_rq_queue
          | by apply cache_key_not_rq_job].
Qed.

Lemma handle_clock (r : request) (w : world) :
  clock w <= clock (handle model uuid4 CACHE_TTL convert_int r w).2.
Proof.
  destruct (handle_cases model uuid4 CACHE_TTL convert_int r w)
    as [-> | [[sr ->] | [(t & p & ->) | [job_id ->]]]]; cbn; try done.
  - apply dispatch_clock.
  - by rewrite (proj1 (submit_job_frame t p w)).
Qed.

Lemma serve_clock (rs : list (N * request)) (w : world) :
  clock w <= clock (serve model uuid4 CACHE_TTL convert_int rs w).
Proof.
  revert w. induction rs as [|[d r] rs IH]; intros w; cbn [serve]; [done|].
  etrans; [|apply IH]. etrans; [|apply handle_clock]. cbn. lia.
Qed.

(** A live cache entry that is not empty survives every request. *)
Lemma handle_keeps_entry (r : request) (w : world) (k b : list Z) (e : Z) :
  py "cache:" `prefix_of` k ->
  redis w !! k = Some (RString b, Some e) -> b <> [] -> clock w < e ->
  redis (handle model uuid4 CACHE_TTL convert_int r w).2 !! k = Some (RString b, Some e).
Proof.
  intros Hp Hk Hb Hc.
  destruct (handle_cases model uuid4 CACHE_TTL convert_int r w)
    as [-> | [[sr ->] | [(t & p & ->) | [job_id ->]]]]; cbn; try done.
  - by apply dispatch_keeps_entry.
  - by rewrite (proj2 (submit_job_frame t p w)).
Qed.

Lemma serve_keeps_entry (rs : list (N * request)) (w : world) (k b : list Z) (e : Z) :
  py "cache:" `prefix_of` k ->
  redis w !! k = Some (RString b, Some e) -> b <> [] ->
  clock (serve model uuid4 CACHE_TTL convert_int rs w) < e ->
  redis (serve model uuid4 CACHE_TTL convert_int rs w) !! k = Some (RString b, Some e).
Proof.
  intros Hp. revert w. induction rs as [|[d r] rs IH]; intros w Hk Hb Hc;
    cbn [serve] in *; [done|].
  apply IH; [|done|done].
  apply handle_keeps_entry; [done|done|done|].
  pose proof (serve_clock rs (handle model uuid4 CACHE_TTL convert_int r (advance d w)).2).
  pose proof (handle_clock r (advance d w)). lia.
Qed.

(** Once a dispatch has stored a result that is not the empty string, every
    later dispatch with the same key, whatever the service handled in
    between, is answered from the cache until the entry expires. *)
Lemma cache_hit_after_store
    (r r' : sync_request) (w : world) (key result b : list Z) (d : N)
    (rs : list (N * request)) :
  key_of r = Ok key -> key_of r' = Ok key ->
  live w key = None \/ live w key = Some (RString []) ->
  model (calls_of (trace w)) (call_of r) = (d, Ok result) ->
  Utf8.encode result = Ok b -> result <> [] ->
  0 < CACHE_TTL <= LLONG_MAX / 1000 ->
  let w1 := (dispatch model CACHE_TTL r w).2 in
  let w2 := serve model uuid4 CACHE_TTL convert_int rs w1 in
  clock w2 < clock w1 + CACHE_TTL ->
  dispatch model CACHE_TTL r' w2
  = (Ok {| resp_task := label_of r'; resp_cached := true; resp_result := result |},
     log (EGet key) w2).
Proof.
  intros Hk Hk' Hl Hm He Hr Ht%setex_accepted w1 w2 Hc.
  assert (b <> []) as Hb by (intros ->; by apply encode_nil in He).
  assert (redis w1 !! key = Some (RString b, Some (clock w1 + CACHE_TTL))) as H1.
  { subst w1. rewrite (dispatch_miss_ok _ _ _ _ _ _ _ _ Hk Hl Hm He Ht). cbn.
    by rewrite lookup_insert_eq. }
  assert (py "cache:" `prefix_of` key) as Hp by (eapply cache_key_prefix, Hk).
  apply (dispatch_hit _ _ _ _ _ b); [done| |done|by apply decode_encode].
  eapply live_entry; [|exact Hc].
  by apply serve_keeps_entry.
Qed.

End ServeFacts.

(** ** The keys of rq stay consistent *)

Section Consistency.

Variable model : list call -> call -> N * res (list Z).
Variable uuid4 : nat -> list Z.
Variable CACHE_TTL : Z.
Variable convert_int : pyval -> option Z.
Hypothesis uuid4_inj : forall m n, uuid4 m = uuid4 n -> m = n.

Lemma initial_consistent : (forall n, 58 ∉ uuid4 n) -> rq_consistent uuid4 initial.
Proof. intros Hc. split; [done|]. split; [|done]. intros n _. apply lookup_empty. Qed.

Lemma key_of_not (sr : sync_request) (k : list Z) :
  ~ py "cache:" `prefix_of` k -> key_of sr <> Ok k.
Proof. intros Hn Hk. apply Hn. eapply cache_key_prefix, Hk. Qed.

Lemma rq_queue_key_not_cache : ~ py "cache:" `prefix_of` rq_queue_key.
Proof. intros [rest H]. vm_compute in H. discriminate. Qed.

Lemma rq_job_key_not_cache (job_id : list Z) : ~ py "cache:" `prefix_of` rq_job_key job_id.
Proof. intros [rest H]. vm_compute in H. discriminate. Qed.

Lemma dispatch_draws (sr : sync_request) (w : world) :
  draws (dispatch model CACHE_TTL sr w).2 = draws w.
Proof.
  rewrite dispatch_eq. unfold dispatch_unfolded.
  destruct (key_of sr) as [key|]; [|done]. cbn zeta.
  destruct (model (calls_of (trace w)) (call_of sr)) as [d out]. cbn [fst snd].
  destruct (live w key) as [[[|b bs]|j|l|st rs]|]; cbn; try done.
  all: try (destruct (Utf8.decode (b :: bs)); cbn; done).
  all: destruct out as [result|]; [|done].
  all: destruct (Utf8.encode result); [|done].
  all: by destruct (setex_refused CACHE_TTL).
Qed.

Lemma handle_consistent (r : request) (w : world) :
  rq_consistent uuid4 w -> rq_consistent uuid4 (handle model uuid4 CACHE_TTL convert_int r w).2.
Proof.
  intros Hw.
  destruct (handle_cases model uuid4 CACHE_TTL convert_int r w)
    as [-> | [[sr ->] | [(t & p & ->) | [job_id ->]]]]; try done.
  - destruct Hw as (Hq & Hj & Hc). split; [|split; [|done]].
    + rewrite dispatch_other_keys; [done|].
      apply key_of_not, rq_queue_key_not_cache.
    + intros n Hn. rewrite dispatch_draws in Hn.
      rewrite dispatch_other_keys; [by apply Hj|].
      apply key_of_not, rq_job_key_not_cache.
  - destruct (submit_job_ok uuid4 t p w Hw)
      as (w' & -> & _ & _ & [e He] & _ & _ & _ & Hd & Hframe).
    cbn [snd]. split; [by rewrite He|]. split; [|apply Hw].
    intros n Hn. rewrite Hd in Hn. rewrite Hframe.
    + apply Hw. lia.
    + intros H%rq_job_key_inj%uuid4_inj. lia.
    + apply rq_job_key_not_queue.
    + apply not_eq_sym, status_key_not_rq_job.
Qed.

Lemma serve_consistent (rs : list (N * request)) (w : world) :
  rq_consistent uuid4 w -> rq_consistent uuid4 (serve model uuid4 CACHE_TTL convert_int rs w).
Proof.
  revert w. induction rs as [|[d r] rs IH]; intros w Hw; cbn [serve]; [done|].
  apply IH, handle_consistent. exact Hw.
Qed.

(** An identifier is drawn once. *)
Lemma fresh_not_issued (w : world) : uuid4 (draws w) ∉ issued uuid4 w.
Proof.
  unfold issued. intros (n & Hn%uuid4_inj & Hin)%list_elem_of_fmap.
  apply elem_of_seq in Hin. lia.
Qed.

End Consistency.

(** ** Keys and identifiers, continued *)

(** The colons do their work: the key of a request determines its task, its
    modifier and the digest of its content. *)
Lemma key_of_fields (r1 r2 : sync_request) (key : list Z) :
  key_of r1 = Ok key -> key_of r2 = Ok key ->
  task_of r1 = task_of r2 /\ modifier_of r1 = modifier_of r2
  /\ sha256_text (content_of r1) = sha256_text (content_of r2).
Proof.
  unfold key_of, cache_key_for_input.
  destruct (sha256_text (content_of r1)) as [d1|]; [|discriminate].
  destruct (sha256_text (content_of r2)) as [d2|]; [|discriminate].
  cbn [res_bind]. intros H1 H2.
  assert (py "cache:" ++ task_of r1 ++ py ":" ++ modifier_of r1 ++ py ":" ++ d1
          = py "cache:" ++ task_of r2 ++ py ":" ++ modifier_of r2 ++ py ":" ++ d2)
    as E by congruence.
  clear H1 H2.
  destruct r1 as [q1|q1|[x1 []]], r2 as [q2|q2|[x2 []]];
    cbn [task_of modifier_of rw_tone] in *; vm_compute in E;
    first [discriminate E | by injection E as ->].
Qed.

(** An identifier that has not been drawn cannot be resolved. *)
Lemma not_issued_unresolved (uuid4 : nat -> list Z) (w : world) (n : nat) :
  rq_consistent uuid4 w -> (draws w <= n)%nat -> live w (rq_job_key (uuid4 n)) = None.
Proof. intros (_ & H & _) Hn. unfold live. by rewrite (H n Hn). Qed.

Lemma uuid4_sample_colon_free (n : nat) : 58 ∉ uuid4_sample n.
Proof.
  unfold uuid4_sample. intros [H|H]%elem_of_app.
  - vm_compute in H. by repeat (apply elem_of_cons in H as [H|H]; [discriminate|]);
      apply elem_of_nil in H.
  - induction (S n) as [|m IH]; cbn [repeat] in H; [by apply elem_of_nil in H|].
    apply elem_of_cons in H as [H|H]; [discriminate|by apply IH].
Qed.

(** The first example of the design document: the same request twice, the
    second time from the cache, also with other bounds on the length. *)
Example fox_twice :
  let model := model_const 2 (Ok (py "A fox.")) in
  let first := dispatch model 86400 fox initial in
  let second := dispatch model 86400 fox first.2 in
  let third := dispatch model 86400
                 (Summarize {| sr_text := py "The quick brown fox...";
                               sr_max_length := Some 150; sr_min_length := Some 25 |})
                 second.2 in
  first.1 = Ok {| resp_task := py "summarization"; resp_cached := false;
                  resp_result := py "A fox." |}
  /\ second.1 = Ok {| resp_task := py "summarization"; resp_cached := true;
                      resp_result := py "A fox." |}
  /\ third.1 = second.1
  /\ calls_of (trace third.2) = [call_of fox].
Proof. vm_compute. repeat split. Qed.

(** ** The properties of the design document *)

Example fox_key_eq : key_of fox = Ok fox_key.
Proof. vm_compute. reflexivity. Qed.

(** C1 (failing case).  A result that is the empty string is stored and
    never served: with a model that answers the empty string, the first dispatch of a request
    misses and stores the answer, and the same request dispatched again
    before the entry expires is again answered with [cached = false], after
    a second model call. *)
Theorem empty_result_is_not_served_from_cache :
  let out1 := dispatch (model_const 2 (Ok [])) 86400 fox initial in
  let out2 := dispatch (model_const 2 (Ok [])) 86400 fox out1.2 in
  out1.1 = Ok {| resp_task := py "summarization"; resp_cached := false;
                 resp_result := [] |}
  /\ redis out1.2 !! fox_key = Some (RString [], Some (clock out1.2 + 86400))
  /\ out2.1 = Ok {| resp_task := py "summarization"; resp_cached := false;
                    resp_result := [] |}
  /\ clock out2.2 < clock out1.2 + 86400
  /\ calls_of (trace out2.2) = [call_of fox; call_of fox].
Proof. vm_compute. repeat split. Qed.

(** C2.  Atomicity on inference failure: when the lookup misses and the
    model call raises, the dispatcher raises that very exception, issues no
    cache write and leaves the store as it was; a key that was absent is
    still absent afterwards, as a later [get] shows. *)
Theorem inference_failure_leaves_cache_untouched
    (model : list call -> call -> N * res (list Z)) (CACHE_TTL : Z)
    (r : sync_request) (w : world) (key : list Z) (d : N) (e : exn) :
  key_of r = Ok key ->
  live w key = None \/ live w key = Some (RString []) ->
  model (calls_of (trace w)) (call_of r) = (d, Raise e) ->
  let out := dispatch model CACHE_TTL r w in
  out.1 = Raise e
  /\ redis out.2 = redis w
  /\ writes_of (trace out.2) = writes_of (trace w)
  /\ calls_of (trace out.2) = calls_of (trace w) ++ [call_of r]
  /\ (live w key = None ->
      live out.2 key = None /\ (redis_get key out.2).1 = Ok None).
Proof.
  intros Hk Hl Hm out. subst out.
  rewrite (dispatch_miss_raise _ _ _ _ _ _ _ Hk Hl Hm). cbn [fst snd].
  repeat split; cbn [redis trace].
  - by rewrite writes_of_app, app_nil_r.
  - by rewrite calls_of_app.
  - apply (live_none_later w); [done|cbn; lia|done].
  - unfold redis_get. rewrite (live_none_later w); [done|done|cbn; lia|done].
Qed.

Lemma inference_failure_leaves_cache_untouched_witness :
  key_of fox = Ok fox_key
  /\ (live initial fox_key = None \/ live initial fox_key = Some (RString []))
  /\ let out := dispatch (model_const 3 (Raise (PipelineError 1))) 86400 fox initial in
     out.1 = Raise (PipelineError 1)
     /\ redis out.2 = redis initial
     /\ writes_of (trace out.2) = writes_of (trace initial)
     /\ calls_of (trace out.2) = calls_of (trace initial) ++ [call_of fox]
     /\ (live initial fox_key = None ->
         live out.2 fox_key = None /\ (redis_get fox_key out.2).1 = Ok None).
Proof.
  split; [vm_compute; reflexivity|]. split; [left; reflexivity|].
  apply (inference_failure_leaves_cache_untouched
           (model_const 3 (Raise (PipelineError 1))) 86400 fox initial fox_key 3
           (PipelineError 1)).
  - vm_compute; reflexivity.
  - left; reflexivity.
  - reflexivity.
Defined.

(** C3.  Cache-key injectivity over content, collisions of SHA-256 set
    aside: for every task and modifier and all contents [c1 <> c2] that do
    not collide under SHA-256 (different UTF-8 encodings with one digest), a
    key computed for [c1] is never the key computed for [c2]. *)
Theorem cache_key_injective_up_to_sha256_collisions
    (task extra c1 c2 key : list Z) :
  c1 <> c2 ->
  ~ sha256_collision c1 c2 ->
  cache_key_for_input c1 task extra = Ok key ->
  cache_key_for_input c2 task extra <> Ok key.
Proof.
  intros Hc Hn H1 H2.
  assert (sha256_text c1 = sha256_text c2) as Hd
    by (apply (cache_key_eq_iff task extra); congruence).
  unfold cache_key_for_input, sha256_text in *.
  destruct (Utf8.encode c1) as [b1|] eqn:E1; [|discriminate].
  destruct (Utf8.encode c2) as [b2|] eqn:E2; [|discriminate].
  cbn [res_bind] in Hd.
  assert (Sha256.hexdigest b1 = Sha256.hexdigest b2) as Hx by congruence.
  apply hexdigest_inj in Hx.
  apply Hn. exists b1, b2. repeat split; try done.
  intros ->. apply Hc. by apply (encode_inj c1 c2 b2).
Qed.

Lemma cache_key_injective_up_to_sha256_collisions_witness :
  py "a" <> py "b"
  /\ ~ sha256_collision (py "a") (py "b")
  /\ cache_key_for_input (py "a") (py "rewrite") (py "formal")
     = Ok (py "cache:rewrite:formal:" ++ Sha256.hexdigest (py "a"))
  /\ cache_key_for_input (py "b") (py "rewrite") (py "formal")
     <> Ok (py "cache:rewrite:formal:" ++ Sha256.hexdigest (py "a")).
Proof.
  assert (py "a" <> py "b") as H1 by (vm_compute; discriminate).
  assert (~ sha256_collision (py "a") (py "b")) as H2.
  { intros (b1 & b2 & [= <-] & [= <-] & _ & H). vm_compute in H. discriminate. }
  assert (cache_key_for_input (py "a") (py "rewrite") (py "formal")
          = Ok (py "cache:rewrite:formal:" ++ Sha256.hexdigest (py "a"))) as H3
    by (vm_compute; reflexivity).
  split; [exact H1|]. split; [exact H2|]. split; [exact H3|].
  exact (cache_key_injective_up_to_sha256_collisions (py "rewrite") (py "formal")
           (py "a") (py "b") _ H1 H2 H3).
Defined.

(** C4.  The key of [/qa] is derived from [context + question] with nothing
    in between: there are two different payloads with the same concatenation,
    hence the same key, and once an answer (not the empty string) has been
    stored for the first, with a time to live that the store accepts, the
    second is answered with it from the cache. *)
Theorem qa_key_ignores_field_boundary :
  exists q1 q2 : QARequest,
    q1 <> q2
    /\ qa_context q1 ++ qa_question q1 = qa_context q2 ++ qa_question q2
    /\ key_of (Qa q1) = key_of (Qa q2)
    /\ forall (model : list call -> call -> N * res (list Z)) (uuid4 : nat -> list Z)
              (CACHE_TTL : Z) (convert_int : pyval -> option Z) (w : world)
              (key answer b : list Z) (d : N) (rs : list (N * request)),
         key_of (Qa q1) = Ok key ->
         live w key = None \/ live w key = Some (RString []) ->
         model (calls_of (trace w)) (call_of (Qa q1)) = (d, Ok answer) ->
         Utf8.encode answer = Ok b -> answer <> [] ->
         0 < CACHE_TTL <= LLONG_MAX / 1000 ->
         let first := dispatch model CACHE_TTL (Qa q1) w in
         let w2 := serve model uuid4 CACHE_TTL convert_int rs first.2 in
         clock w2 < clock first.2 + CACHE_TTL ->
         first.1 = Ok {| resp_task := py "qa"; resp_cached := false;
                         resp_result := answer |}
         /\ dispatch model CACHE_TTL (Qa q2) w2
            = (Ok {| resp_task := py "qa"; resp_cached := true;
                     resp_result := answer |},
               log (EGet key) w2).
Proof.
  exists qa_ab_c, qa_a_bc.
  assert (key_of (Qa qa_ab_c) = key_of (Qa qa_a_bc)) as Hkey by reflexivity.
  split; [discriminate|]. split; [reflexivity|]. split; [exact Hkey|].
  intros model uuid4 CACHE_TTL convert_int w key answer b d rs Hk Hl Hm He Ha Ht
         first w2 Hc.
  split.
  - subst first.
    by rewrite (dispatch_miss_ok _ _ _ _ _ _ _ _ Hk Hl Hm He (setex_accepted _ Ht)).
  - rewrite Hkey in Hk.
    apply (cache_hit_after_store model uuid4 CACHE_TTL convert_int
             (Qa qa_ab_c) (Qa qa_a_bc) w key answer b d rs); try done.
Qed.

Example qa_collision_run :
  let model := model_const 1 (Ok (py "x")) in
  let first := dispatch model 86400 (Qa qa_ab_c) initial in
  let second := dispatch model 86400 (Qa qa_a_bc) first.2 in
  first.1 = Ok {| resp_task := py "qa"; resp_cached := false; resp_result := py "x" |}
  /\ second.1 = Ok {| resp_task := py "qa"; resp_cached := true; resp_result := py "x" |}
  /\ calls_of (trace second.2) = [call_of (Qa qa_ab_c)].
Proof. vm_compute. repeat split. Qed.

(** When the lookup of a job fails: exactly when no live job hash is stored
    under the key of the identifier cut at its first colon. *)
Lemma Job_fetch_raises (job_id : list Z) (w : world) :
  (exists e, (Job_fetch job_id w).1 = Raise e)
  <-> match live w (rq_job_key (before_colon job_id)) with
      | Some (RHash _) | Some (RHashOther _ _) => False
      | _ => True
      end.
Proof.
  unfold Job_fetch.
  destruct (live w (rq_job_key (before_colon job_id))) as [[b|j|l|st rs]|];
    cbn [fst]; split; try done; try (by intros [e He]); by eexists.
Qed.

(** An identifier that was never drawn cannot be fetched. *)
Lemma not_issued_fetch_raises (uuid4 : nat -> list Z) (w : world) (n : nat) :
  rq_consistent uuid4 w -> (draws w <= n)%nat ->
  (Job_fetch (uuid4 n) w).1 = Raise NoSuchJobError.
Proof.
  intros Hw Hn. apply Job_fetch_none.
  rewrite before_colon_id by apply Hw. by apply not_issued_unresolved.
Qed.



(** The identifier of the example [GET /result/nonexistent-id]. *)
Example result_nonexistent_id :
  let out := handle (model_const 1 (Ok [])) uuid4_sample 86400 convert_sample
               (GetResult (py "nonexistent-id")) initial in
  out.1 = Raise (HTTPException 404 (py "Job not found")) /\ http_status out.1 = 404.
Proof. vm_compute. by split. Qed.

(** What resolves is the identifier up to its first colon: an identifier that
    was never issued, made of an issued one, a colon and more, is answered
    with the status of the issued job. *)
Example suffixed_identifier_is_resolved :
  let w := (submit_job uuid4_sample TQa paris_payload initial).2 in
  let job_id := uuid4_sample 0 ++ py ":x" in
  (job_id ∉ issued uuid4_sample w)
  /\ (handle (model_const 1 (Ok [])) uuid4_sample 86400 convert_sample
        (GetStatus job_id) w).1
     = Ok (JobR {| jr_job_id := job_id; jr_status := py "queued"; jr_result := None |}).
Proof.
  intros w job_id. split; [|vm_compute; reflexivity].
  assert (issued uuid4_sample w = [uuid4_sample 0]) as -> by reflexivity.
  intros [H|H]%elem_of_cons; [vm_compute in H; discriminate|by apply elem_of_nil in H].
Qed.

Lemma uuid4_sample_inj (m n : nat) : uuid4_sample m = uuid4_sample n -> m = n.
Proof.
  unfold uuid4_sample. intros H%app_inv_head.
  apply (f_equal length) in H. rewrite !repeat_length in H. lia.
Qed.

(** C6.  Submission contract: in a store whose rq keys are consistent, and
    with identifiers that never repeat, [submit_job] draws an identifier that
    was not issued before, saves a job that binds the task and the payload to
    it with status [queued], appends it to the queue, writes the status record
    [queued] with a time to live of 3600 seconds, and answers with the
    identifier and [queued]; no model is called and no time passes, and
    [/status] then reports [queued]. *)
Theorem submit_contract
    (uuid4 : nat -> list Z) (t : TaskType) (payload : list (list Z * pyval))
    (w : world) :
  (forall m n, uuid4 m = uuid4 n -> m = n) ->
  rq_consistent uuid4 w ->
  let job_id := uuid4 (draws w) in
  exists w',
    submit_job uuid4 t payload w
    = (Ok {| sub_job_id := job_id; sub_status := py "queued" |}, w')
    /\ (job_id ∉ issued uuid4 w)
    /\ issued uuid4 w' = issued uuid4 w ++ [job_id]
    /\ live w' (rq_job_key job_id)
       = Some (RHash {| jd_task := task_str t; jd_payload := payload;
                        jd_status := Queued; jd_result := VNone |})
    /\ pending w' = pending w ++ [job_id]
    /\ redis w' !! status_key job_id
       = Some (RString (py "queued"), Some (clock w + 3600))
    /\ calls_of (trace w') = calls_of (trace w)
    /\ clock w' = clock w
    /\ (job_status job_id w').1
       = Ok {| jr_job_id := job_id; jr_status := py "queued"; jr_result := None |}.
Proof.
  intros Hinj Hw job_id. subst job_id.
  destruct (submit_job_ok uuid4 t payload w Hw)
    as (w' & Hrun & Hjob & Hq & _ & Hs & Ht & Hc & Hd & _).
  exists w'. split; [exact Hrun|]. split; [by apply fresh_not_issued|].
  split; [|split; [exact Hjob|split; [exact Hq|split; [exact Hs|split;
    [|split; [exact Hc|]]]]]].
  - unfold issued. rewrite Hd, seq_S, map_app. reflexivity.
  - rewrite Ht, calls_of_app. cbn. by rewrite app_nil_r.
  - rewrite <- (before_colon_id (uuid4 (draws w))) in Hjob at 1 by apply Hw.
    by rewrite (job_status_found _ _ _ Hjob).
Qed.

Lemma submit_contract_witness :
  (forall m n, uuid4_sample m = uuid4_sample n -> m = n)
  /\ rq_consistent uuid4_sample initial
  /\ exists w',
       submit_job uuid4_sample TQa paris_payload initial
       = (Ok {| sub_job_id := uuid4_sample 0; sub_status := py "queued" |}, w')
       /\ (uuid4_sample 0 ∉ issued uuid4_sample initial)
       /\ issued uuid4_sample w' = issued uuid4_sample initial ++ [uuid4_sample 0]
       /\ live w' (rq_job_key (uuid4_sample 0))
          = Some (RHash {| jd_task := task_str TQa; jd_payload := paris_payload;
                           jd_status := Queued; jd_result := VNone |})
       /\ pending w' = pending initial ++ [uuid4_sample 0]
       /\ redis w' !! status_key (uuid4_sample 0)
          = Some (RString (py "queued"), Some (clock initial + 3600))
       /\ calls_of (trace w') = calls_of (trace initial)
       /\ clock w' = clock initial
       /\ (job_status (uuid4_sample 0) w').1
          = Ok {| jr_job_id := uuid4_sample 0; jr_status := py "queued";
                  jr_result := None |}.
Proof.
  split; [exact uuid4_sample_inj|].
  split; [exact (initial_consistent uuid4_sample uuid4_sample_colon_free)|].
  exact (submit_contract uuid4_sample TQa paris_payload initial
           uuid4_sample_inj (initial_consistent uuid4_sample uuid4_sample_colon_free)).
Defined.

Example submit_run :
  let out := handle (model_const 1 (Ok (py "Paris"))) uuid4_sample 86400 convert_sample
               (PostSubmit (py "qa") (VDict paris_payload)) initial in
  out.1 = Ok (SubmitR {| sub_job_id := py "job-1"; sub_status := py "queued" |})
  /\ pending out.2 = [py "job-1"]
  /\ trace out.2 = [EEnqueue (py "job-1");
                    ESetex (py "job:job-1:status") 3600 (py "queued")].
Proof. vm_compute. repeat split. Qed.

(** C7 (as stated, refuted).  The key is not the task, the modifier and the
    digest joined by a delimiter, whatever the delimiter: it starts with the
    tag [cache]. *)
Lemma cache_key_is_not_three_fields :
  ~ exists delimiter : list Z,
      cache_key_for_input [] (py "qa") []
      = Ok (py "qa" ++ delimiter ++ [] ++ delimiter ++ Sha256.hexdigest []).
Proof. intros [delimiter H]. vm_compute in H. discriminate. Qed.

(** C7 (amended).  The key is a function of its three arguments alone; for
    a content that has a UTF-8 encoding it is the tag [cache], the task, the
    modifier and the digest, joined by colons, where the digest is the
    SHA-256 of the encoded content as sixty-four lower-case hexadecimal
    digits.  The modifier is empty for [/summarize] and [/qa], and no task
    or modifier that an endpoint passes contains a colon. *)
Theorem cache_key_shape (text task extra b : list Z) :
  Utf8.encode text = Ok b ->
  cache_key_for_input text task extra
  = Ok (py "cache" ++ py ":" ++ task ++ py ":" ++ extra ++ py ":"
          ++ Sha256.hexdigest b)
  /\ length (Sha256.hexdigest b) = 64%nat
  /\ Forall is_hex (Sha256.hexdigest b)
  /\ (forall text', text' = text ->
        cache_key_for_input text' task extra = cache_key_for_input text task extra)
  /\ (forall req, modifier_of (Summarize req) = [])
  /\ (forall req, modifier_of (Qa req) = [])
  /\ (forall r : sync_request, (58 ∉ task_of r) /\ (58 ∉ modifier_of r)).
Proof.
  intros He. split; [by rewrite (cache_key_eq _ _ _ _ He)|].
  split; [apply hexdigest_length|]. split; [apply hexdigest_is_hex|].
  split; [by intros ? ->|]. split; [done|]. split; [done|].
  intros r. split.
  - destruct r; apply (bool_decide_unpack _); vm_compute; exact I.
  - destruct r as [req|req|[rtext []]]; apply (bool_decide_unpack _);
      vm_compute; exact I.
Qed.

Lemma cache_key_shape_witness :
  Utf8.encode (py "abc") = Ok (py "abc")
  /\ cache_key_for_input (py "abc") (py "rewrite") (py "formal")
     = Ok (py "cache" ++ py ":" ++ py "rewrite" ++ py ":" ++ py "formal" ++ py ":"
             ++ Sha256.hexdigest (py "abc")).
Proof.
  split; [reflexivity|].
  exact (proj1 (cache_key_shape (py "abc") (py "rewrite") (py "formal") (py "abc")
                  eq_refl)).
Defined.

(** C8 (as stated, refuted).  A miss whose model call succeeds need not end
    in a write: with [CACHE_TTL = 0] the lookup misses, the model answers,
    the store refuses the [setex], nothing is stored and the request fails. *)
Lemma miss_with_answer_stores_nothing :
  let model := model_const 2 (Ok (py "A fox.")) in
  let out := dispatch model 0 fox initial in
  key_of fox = Ok fox_key
  /\ live initial fox_key = None
  /\ model (calls_of (trace initial)) (call_of fox) = (2%N, Ok (py "A fox."))
  /\ calls_of (trace out.2) = [call_of fox]
  /\ out.1 = Raise ResponseError
  /\ redis out.2 = redis initial
  /\ live out.2 fox_key = None.
Proof. vm_compute. repeat split. Qed.

(** C8 (amended).  Cache-write frame condition.  With [key] the key of the
    request, a dispatch never changes another key of the store.  On a hit
    (the stored value is live and not empty) it issues no write and leaves
    the store as it was.  On a miss whose model call succeeds with a result
    that can be encoded it issues exactly one [setex], of the fresh result
    under [key]; the store carries it out when the time to live is one it
    accepts, and then [key] is the only key that changes; otherwise the
    store refuses, nothing changes and the request fails.  When the result
    cannot be encoded no write is issued and the request fails.  In terms of
    the answer: [cached = true] goes with no write, [cached = false] with
    one that took effect. *)
Theorem cache_write_frame
    (model : list call -> call -> N * res (list Z)) (CACHE_TTL : Z)
    (r : sync_request) (w : world) (key : list Z) :
  key_of r = Ok key ->
  let out := dispatch model CACHE_TTL r w in
  (forall k, k <> key -> redis out.2 !! k = redis w !! k)
  /\ (forall b, live w key = Some (RString b) -> b <> [] ->
     redis out.2 = redis w
     /\ writes_of (trace out.2) = writes_of (trace w)
     /\ calls_of (trace out.2) = calls_of (trace w))
  /\ (forall d result,
        live w key = None \/ live w key = Some (RString []) ->
        model (calls_of (trace w)) (call_of r) = (d, Ok result) ->
        match Utf8.encode result with
        | Ok b =>
            writes_of (trace out.2) = writes_of (trace w) ++ [(key, CACHE_TTL, b)]
            /\ if setex_refused CACHE_TTL
               then out.1 = Raise ResponseError /\ redis out.2 = redis w
               else out.1 = Ok {| resp_task := label_of r; resp_cached := false;
                                  resp_result := result |}
                    /\ redis out.2
                       = <[key := (RString b, Some (clock out.2 + CACHE_TTL))]> (redis w)
        | Raise e =>
            out.1 = Raise e /\ redis out.2 = redis w
            /\ writes_of (trace out.2) = writes_of (trace w)
        end)
  /\ (forall resp, out.1 = Ok resp ->
        if resp_cached resp
        then redis out.2 = redis w
             /\ writes_of (trace out.2) = writes_of (trace w)
        else exists b,
               Utf8.encode (resp_result resp) = Ok b
               /\ writes_of (trace out.2) = writes_of (trace w) ++ [(key, CACHE_TTL, b)]
               /\ redis out.2
                  = <[key := (RString b, Some (clock out.2 + CACHE_TTL))]> (redis w)).
Proof.
  intros Hk out. split; [|split; [|split]].
  - intros k Hne. subst out. apply dispatch_other_keys. congruence.
  - intros b Hl Hb. subst out. rewrite dispatch_eq. unfold dispatch_unfolded.
    rewrite Hk, Hl. destruct b as [|b0 bs]; [done|].
    destruct (Utf8.decode (b0 :: bs)); cbn [snd log redis trace];
      by rewrite writes_of_app, calls_of_app, !app_nil_r.
  - intros d result Hl Hm. subst out. rewrite dispatch_eq. unfold dispatch_unfolded.
    rewrite Hk, Hm. cbn [fst snd].
    destruct (Utf8.encode result) as [b|e] eqn:He.
    + destruct (setex_refused CACHE_TTL);
        destruct Hl as [-> | ->];
        cbn [fst snd set_redis log advance redis trace clock];
        rewrite !writes_of_app; cbn [writes_of]; by rewrite !app_nil_r.
    + destruct Hl as [-> | ->]; cbn [fst snd log advance redis trace];
        rewrite !writes_of_app; cbn [writes_of]; by rewrite !app_nil_r.
  - intros resp. subst out. rewrite dispatch_eq. unfold dispatch_unfolded.
    rewrite Hk. cbn zeta.
    destruct (model (calls_of (trace w)) (call_of r)) as [d o]. cbn [fst snd].
    destruct (live w key) as [[[|b0 bs]|j|l|st rs]|]; cbn [fst snd]; try discriminate.
    2: { destruct (Utf8.decode (b0 :: bs)); cbn [fst snd]; [|discriminate].
         intros [= <-]. cbn. by rewrite writes_of_app, app_nil_r. }
    all: destruct o as [result|]; [|discriminate].
    all: destruct (Utf8.encode result) as [b|] eqn:He; [|discriminate].
    all: destruct (setex_refused CACHE_TTL); cbn [fst snd]; [discriminate|].
    all: intros [= <-]; cbn [resp_cached resp_result]; exists b.
    all: split; [exact He|]; cbn [set_redis log advance redis trace clock].
    all: split; [rewrite !writes_of_app; cbn [writes_of]; by rewrite !app_nil_r|].
    all: reflexivity.
Qed.

Lemma cache_write_frame_witness :
  key_of fox = Ok fox_key
  /\ let out := dispatch (model_const 2 (Ok (py "A fox."))) 86400 fox initial in
     (forall k, k <> fox_key -> redis out.2 !! k = redis initial !! k)
     /\ forall resp, out.1 = Ok resp ->
          if resp_cached resp
          then redis out.2 = redis initial
               /\ writes_of (trace out.2) = writes_of (trace initial)
          else exists b,
                 Utf8.encode (resp_result resp) = Ok b
                 /\ writes_of (trace out.2)
                    = writes_of (trace initial) ++ [(fox_key, 86400, b)]
                 /\ redis out.2
                    = <[fox_key := (RString b, Some (clock out.2 + 86400))]>
                        (redis initial).
Proof.
  assert (key_of fox = Ok fox_key) as Hk by (vm_compute; reflexivity).
  split; [exact Hk|].
  pose proof (cache_write_frame (model_const 2 (Ok (py "A fox."))) 86400
                fox initial fox_key Hk) as H.
  split; [exact (proj1 H)|exact (proj2 (proj2 (proj2 H)))].
Defined.

(** C9 (as stated, refuted).  A job submission whose payload lacks every
    field of its task is not rejected: it is enqueued and answered with
    [queued]; the missing field shows only when the worker runs the job,
    as a [KeyError], before any model is called. *)
Lemma submit_enqueues_payload_without_fields :
  let model := model_const 1 (Ok (py "x")) in
  let out := handle model uuid4_sample 86400 convert_sample
               (PostSubmit (py "summarize") (VDict [])) initial in
  out.1 = Ok (SubmitR {| sub_job_id := py "job-1"; sub_status := py "queued" |})
  /\ http_status out.1 = 200
  /\ pending out.2 = [py "job-1"]
  /\ trace out.2 = [EEnqueue (py "job-1");
                    ESetex (py "job:job-1:status") 3600 (py "queued")]
  /\ process_genai_task model (py "summarize") [] out.2
     = (Raise (KeyError (py "text")), out.2).
Proof. vm_compute. repeat split. Qed.

(** A field that is missing or is not a string fails the check. *)
Lemma get_str_none (d : list (list Z * pyval)) (k : list Z) :
  (forall s, dict_get d k <> Some (VStr s)) ->
  @mbind option option_bind _ _ as_str (dict_get d k) = None.
Proof.
  intros H. destruct (dict_get d k) as [v|]; [|done].
  destruct v as [|b|n|m e|s|l|d']; try done. by destruct (H s).
Qed.

(** C9 (amended).  Validation precedes work where there is validation: a
    request that does not pass it is answered with the client error 422 and
    the world, trace included, is as before: no cache access, no model call,
    nothing enqueued.  For the three synchronous endpoints a body does not
    pass when it is not an object, when a required field is missing or is
    not a string, when the tone is neither [formal] nor [informal], or when
    a length bound is there and is neither [null] nor an integer nor
    something that converts to one.  For a job submission what is checked is
    the task type and that the body is an object, nothing else. *)
Theorem validation_precedes_work
    (model : list call -> call -> N * res (list Z)) (uuid4 : nat -> list Z)
    (CACHE_TTL : Z) (convert_int : pyval -> option Z) :
  (forall r w, accepted convert_int r = false ->
     handle model uuid4 CACHE_TTL convert_int r w = (Raise RequestValidationError, w)
     /\ http_status (handle model uuid4 CACHE_TTL convert_int r w).1 = 422)
  /\ (forall body, (forall d, body <> VDict d) ->
        accepted convert_int (PostSummarize body) = false
        /\ accepted convert_int (PostQa body) = false
        /\ accepted convert_int (PostRewrite body) = false
        /\ forall task_type, accepted convert_int (PostSubmit task_type body) = false)
  /\ (forall d, (forall s, dict_get d (py "text") <> Some (VStr s)) ->
        accepted convert_int (PostSummarize (VDict d)) = false
        /\ accepted convert_int (PostRewrite (VDict d)) = false)
  /\ (forall d, dict_get d (py "tone") <> Some (VStr (py "formal")) ->
                dict_get d (py "tone") <> Some (VStr (py "informal")) ->
        accepted convert_int (PostRewrite (VDict d)) = false)
  /\ (forall d, (forall s, dict_get d (py "context") <> Some (VStr s))
                \/ (forall s, dict_get d (py "question") <> Some (VStr s)) ->
        accepted convert_int (PostQa (VDict d)) = false)
  /\ (forall d v, dict_get d (py "max_length") = Some v
                  \/ dict_get d (py "min_length") = Some v ->
        v <> VNone -> (forall n, v <> VInt n) -> convert_int v = None ->
        accepted convert_int (PostSummarize (VDict d)) = false)
  /\ (forall task_type d,
        accepted convert_int (PostSubmit task_type (VDict d)) = true
        <-> task_type = py "summarize" \/ task_type = py "qa"
            \/ task_type = py "rewrite").
Proof.
  split; [|split; [|split; [|split; [|split; [|split]]]]].
  - intros r w Hr.
    assert (handle model uuid4 CACHE_TTL convert_int r w
            = (Raise RequestValidationError, w)) as ->.
    { destruct r as [body|body|body|task_type body|job_id|job_id];
        cbn [accepted handle] in *; try discriminate.
      - destruct (parse_SummarizeRequest convert_int body); [|done].
        by rewrite bool_decide_eq_false in Hr; destruct Hr.
      - destruct (parse_QARequest body); [|done].
        by rewrite bool_decide_eq_false in Hr; destruct Hr.
      - destruct (parse_RewriteRequest body); [|done].
        by rewrite bool_decide_eq_false in Hr; destruct Hr.
      - destruct (parse_task_type task_type); [|done].
        destruct (parse_payload body); [|done].
        by cbn in Hr. }
    done.
  - intros body Hb.
    destruct body as [|b|n|m e|s|l|d]; [..|by destruct (Hb d)];
      (repeat split; [done..|]); intros task_type; cbn; apply andb_false_r.
  - intros d Hd%get_str_none.
    cbn [accepted parse_SummarizeRequest parse_RewriteRequest].
    rewrite Hd. done.
  - intros d H1 H2. cbn [accepted parse_RewriteRequest].
    destruct (dict_get d (py "text") ≫= as_str) as [text|]; [|done].
    cbn [mbind option_bind].
    destruct (dict_get d (py "tone")) as [[|b|n|m e|s|l|d']|];
      cbn [mbind option_bind as_str]; try done.
    unfold parse_tone. rewrite !decide_False by congruence. done.
  - intros d Hd. cbn [accepted parse_QARequest].
    destruct Hd as [Hd%get_str_none | Hd%get_str_none]; [by rewrite Hd|].
    destruct (dict_get d (py "context") ≫= as_str); [|done].
    cbn [mbind option_bind]. by rewrite Hd.
  - intros d v Hd Hn Hi Hc. cbn [accepted parse_SummarizeRequest].
    destruct (dict_get d (py "text") ≫= as_str) as [text|]; [|done].
    cbn [mbind option_bind].
    assert (as_opt_int convert_int 150 (Some v) = None
            /\ as_opt_int convert_int 25 (Some v) = None) as [H1 H2].
    { unfold as_opt_int. rewrite Hc.
      destruct v as [|b|n|m e|s|l|d']; try done. by destruct (Hi n). }
    destruct Hd as [-> | ->].
    + rewrite H1. by cbn [mbind option_bind].
    + rewrite H2.
      by destruct (as_opt_int convert_int 150 (dict_get d (py "max_length")));
        cbn [mbind option_bind].
  - intros task_type d.
    destruct (decide (task_type = py "summarize")) as [->|H1];
      [split; [by left|by vm_compute]|].
    destruct (decide (task_type = py "qa")) as [->|H2];
      [split; [by right; left|by vm_compute]|].
    destruct (decide (task_type = py "rewrite")) as [->|H3];
      [split; [by right; right|by vm_compute]|].
    cbn [accepted]. unfold parse_task_type.
    rewrite !decide_False by done. cbn. split; [done|]. by intros [|[|]].
Qed.

(** A key whose value is the empty string or that is not live stays in that
    condition as time passes. *)
Lemma empty_or_absent_later (d : N) (w : world) (key : list Z) :
  live w key = None \/ live w key = Some (RString []) ->
  live (advance d w) key = None \/ live (advance d w) key = Some (RString []).
Proof.
  unfold live. cbn [redis advance clock].
  destruct (redis w !! key) as [[v [e|]]|]; try done.
  destruct (Z.ltb_spec (clock w) e), (Z.ltb_spec (clock w + Z.of_N d) e);
    try done; try lia. intros _. by left.
Qed.

(** C10.  When the value stored under the key of a request is the empty
    string, the dispatch is a miss: the model is called, and when it answers
    the answer is stored again (the time to live being one that the store
    accepts) and returned with [cached = false].  With a
    model that answers this request with the empty string every time, every
    later dispatch of the request is such a miss, however much time passes
    in between. *)
Theorem empty_cached_value_is_a_miss
    (model : list call -> call -> N * res (list Z)) (CACHE_TTL : Z)
    (r : sync_request) (w : world) (key : list Z) :
  key_of r = Ok key ->
  live w key = Some (RString []) ->
  0 < CACHE_TTL <= LLONG_MAX / 1000 ->
  (forall d result b,
     model (calls_of (trace w)) (call_of r) = (d, Ok result) ->
     Utf8.encode result = Ok b ->
     let out := dispatch model CACHE_TTL r w in
     out.1 = Ok {| resp_task := label_of r; resp_cached := false;
                   resp_result := result |}
     /\ calls_of (trace out.2) = calls_of (trace w) ++ [call_of r]
     /\ writes_of (trace out.2) = writes_of (trace w) ++ [(key, CACHE_TTL, b)]
     /\ redis out.2 !! key = Some (RString b, Some (clock out.2 + CACHE_TTL)))
  /\ ((forall h, (model h (call_of r)).2 = Ok []) ->
      forall delays,
        let outs := redispatch model CACHE_TTL delays r w in
        outs.1 = repeat (Ok {| resp_task := label_of r; resp_cached := false;
                               resp_result := [] |}) (length delays)
        /\ calls_of (trace outs.2)
           = calls_of (trace w) ++ repeat (call_of r) (length delays)
        /\ writes_of (trace outs.2)
           = writes_of (trace w) ++ repeat (key, CACHE_TTL, []) (length delays)).
Proof.
  intros Hk Hl Hb. pose proof (setex_accepted _ Hb) as Ht. split.
  - intros d result b Hm He out. subst out.
    rewrite (dispatch_miss_ok _ _ _ _ _ _ _ _ Hk (or_intror Hl) Hm He Ht).
    cbn [fst snd trace redis clock]. repeat split.
    + by rewrite calls_of_app.
    + by rewrite writes_of_app.
    + by rewrite lookup_insert_eq.
  - intros Hm delays.
    assert (live w key = None \/ live w key = Some (RString [])) as Hinv by by right.
    clear Hl. revert w Hinv.
    induction delays as [|d delays IH]; intros w Hinv; cbn [redispatch length repeat].
    { cbn. by rewrite !app_nil_r. }
    pose proof (empty_or_absent_later d w key Hinv) as Hinv'.
    destruct (model (calls_of (trace (advance d w))) (call_of r)) as [dm o] eqn:Hcall.
    pose proof (Hm (calls_of (trace (advance d w)))) as Ho.
    rewrite Hcall in Ho. cbn [snd] in Ho. subst o.
    rewrite (dispatch_miss_ok _ _ _ _ _ _ _ _ Hk Hinv' Hcall eq_refl Ht).
    match goal with
    | |- context [redispatch model CACHE_TTL delays r ?w1] =>
        specialize (IH w1); destruct (redispatch model CACHE_TTL delays r w1) as [outs w2]
    end.
    cbn [fst snd] in *.
    destruct IH as (-> & -> & ->).
    { right. unfold live. cbn [redis clock advance].
      rewrite lookup_insert_eq.
      by destruct (Z.ltb_spec (clock w + Z.of_N d + Z.of_N dm)
                     (clock w + Z.of_N d + Z.of_N dm + CACHE_TTL)); [|lia]. }
    cbn [trace advance]. rewrite calls_of_app, writes_of_app. cbn.
    by rewrite <- !app_assoc.
Qed.

Lemma empty_cached_value_is_a_miss_witness :
  let w := (dispatch (model_const 2 (Ok [])) 86400 fox initial).2 in
  key_of fox = Ok fox_key
  /\ live w fox_key = Some (RString [])
  /\ 0 < 86400 <= LLONG_MAX / 1000
  /\ let outs := redispatch (model_const 2 (Ok [])) 86400 [5%N; 100000%N; 0%N] fox w in
     outs.1 = repeat (Ok {| resp_task := label_of fox; resp_cached := false;
                            resp_result := [] |}) 3
     /\ calls_of (trace outs.2) = calls_of (trace w) ++ repeat (call_of fox) 3
     /\ writes_of (trace outs.2)
        = writes_of (trace w) ++ repeat (fox_key, 86400, []) 3.
Proof.
  intros w.
  assert (key_of fox = Ok fox_key) as Hk by (vm_compute; reflexivity).
  assert (live w fox_key = Some (RString [])) as Hl by (vm_compute; reflexivity).
  assert (0 < 86400 <= LLONG_MAX / 1000) as Ht by (vm_compute; split; [done|discriminate]).
  split; [exact Hk|]. split; [exact Hl|]. split; [exact Ht|].
  exact (proj2 (empty_cached_value_is_a_miss (model_const 2 (Ok [])) 86400 fox w
                  fox_key Hk Hl Ht)
           (fun _ => eq_refl) [5%N; 100000%N; 0%N]).
Defined.

(** * Further properties of the handlers *)

(** ** The synchronous endpoints *)

(** X1.  What a miss stores is served until it expires: after a dispatch has
    stored a result that is not the empty string, with a time to live that
    the store accepts, any request with the same key, after any run of other
    requests, is answered from the cache with that very result as long as
    the time to live has not passed; the answer costs one [get], no model
    call and no write. *)
Theorem stored_result_is_served_until_expiry
    (model : list call -> call -> N * res (list Z)) (uuid4 : nat -> list Z)
    (CACHE_TTL : Z) (convert_int : pyval -> option Z) (r r' : sync_request)
    (w : world) (key result b : list Z) (d : N) (rs : list (N * request)) :
  key_of r = Ok key -> key_of r' = Ok key ->
  live w key = None \/ live w key = Some (RString []) ->
  model (calls_of (trace w)) (call_of r) = (d, Ok result) ->
  Utf8.encode result = Ok b -> result <> [] ->
  0 < CACHE_TTL <= LLONG_MAX / 1000 ->
  let first := dispatch model CACHE_TTL r w in
  let w2 := serve model uuid4 CACHE_TTL convert_int rs first.2 in
  clock w2 < clock first.2 + CACHE_TTL ->
  let again := dispatch model CACHE_TTL r' w2 in
  again.1 = Ok {| resp_task := label_of r'; resp_cached := true;
                  resp_result := result |}
  /\ redis again.2 = redis w2
  /\ clock again.2 = clock w2
  /\ trace again.2 = trace w2 ++ [EGet key].
Proof.
  intros Hk Hk' Hl Hm He Hr Ht first w2 Hc again. subst again w2 first.
  rewrite (cache_hit_after_store model uuid4 CACHE_TTL convert_int r r' w key
             result b d rs);
    done.
Qed.

Lemma stored_result_is_served_until_expiry_witness :
  let model := model_const 2 (Ok (py "A fox.")) in
  let first := dispatch model 86400 fox initial in
  let w2 := serve model uuid4_sample 86400 convert_sample sample_run first.2 in
  let again := dispatch model 86400 fox w2 in
  clock w2 < clock first.2 + 86400
  /\ again.1 = Ok {| resp_task := label_of fox; resp_cached := true;
                     resp_result := py "A fox." |}
  /\ redis again.2 = redis w2
  /\ clock again.2 = clock w2
  /\ trace again.2 = trace w2 ++ [EGet fox_key].
Proof.
  intros model first w2 again.
  assert (clock w2 < clock first.2 + 86400) as Hc by (vm_compute; reflexivity).
  split; [exact Hc|].
  apply (stored_result_is_served_until_expiry model uuid4_sample 86400 convert_sample
           fox fox initial fox_key (py "A fox.") (py "A fox.") 2 sample_run).
  - vm_compute; reflexivity.
  - vm_compute; reflexivity.
  - left; reflexivity.
  - reflexivity.
  - reflexivity.
  - discriminate.
  - vm_compute; split; [reflexivity|discriminate].
  - exact Hc.
Defined.

(** X2.  The key of [/summarize] is made from the text alone: a request
    with the same text and other length bounds is answered with the summary
    that was stored for the first, and the model is not asked again. *)
Theorem summarize_cache_ignores_length_bounds
    (model : list call -> call -> N * res (list Z)) (uuid4 : nat -> list Z)
    (CACHE_TTL : Z) (convert_int : pyval -> option Z)
    (req1 req2 : SummarizeRequest) (w : world)
    (key result b : list Z) (d : N) (rs : list (N * request)) :
  sr_text req1 = sr_text req2 ->
  key_of (Summarize req1) = Ok key ->
  live w key = None \/ live w key = Some (RString []) ->
  model (calls_of (trace w)) (call_of (Summarize req1)) = (d, Ok result) ->
  Utf8.encode result = Ok b -> result <> [] ->
  0 < CACHE_TTL <= LLONG_MAX / 1000 ->
  let first := dispatch model CACHE_TTL (Summarize req1) w in
  let w2 := serve model uuid4 CACHE_TTL convert_int rs first.2 in
  clock w2 < clock first.2 + CACHE_TTL ->
  key_of (Summarize req2) = Ok key
  /\ dispatch model CACHE_TTL (Summarize req2) w2
     = (Ok {| resp_task := py "summarization"; resp_cached := true;
              resp_result := result |},
        log (EGet key) w2).
Proof.
  intros Ht Hk Hl Hm He Hr Hpos first w2 Hc.
  assert (key_of (Summarize req2) = Ok key) as Hk2.
  { unfold key_of in *. cbn [content_of task_of modifier_of] in *. by rewrite <- Ht. }
  split; [exact Hk2|].
  by apply (cache_hit_after_store model uuid4 CACHE_TTL convert_int (Summarize req1)
              (Summarize req2) w key result b d rs).
Qed.

Lemma summarize_cache_ignores_length_bounds_witness :
  let model := model_const 2 (Ok (py "A fox.")) in
  let other := {| sr_text := py "The quick brown fox...";
                  sr_max_length := Some 150; sr_min_length := None |} in
  let first := dispatch model 86400 fox initial in
  key_of (Summarize other) = Ok fox_key
  /\ dispatch model 86400 (Summarize other) first.2
     = (Ok {| resp_task := py "summarization"; resp_cached := true;
              resp_result := py "A fox." |},
        log (EGet fox_key) first.2).
Proof.
  intros model other first.
  apply (summarize_cache_ignores_length_bounds model uuid4_sample 86400 convert_sample
           {| sr_text := py "The quick brown fox...";
              sr_max_length := Some 50; sr_min_length := Some 10 |}
           other initial fox_key (py "A fox.") (py "A fox.") 2 []).
  - reflexivity.
  - vm_compute; reflexivity.
  - left; reflexivity.
  - reflexivity.
  - reflexivity.
  - discriminate.
  - vm_compute; split; [reflexivity|discriminate].
  - vm_compute; reflexivity.
Defined.

(** X3.  An entry is served no longer than its time to live: once
    [CACHE_TTL] seconds (a time that the store accepts) have passed since a
    result was stored, the key is absent again, and the next dispatch calls
    the model anew and returns the fresh answer with [cached = false]. *)
Theorem expired_entry_is_recomputed
    (model : list call -> call -> N * res (list Z)) (CACHE_TTL : Z)
    (r : sync_request) (w : world) (key result b result2 b2 : list Z)
    (d delay d2 : N) :
  key_of r = Ok key ->
  live w key = None \/ live w key = Some (RString []) ->
  model (calls_of (trace w)) (call_of r) = (d, Ok result) ->
  Utf8.encode result = Ok b -> 0 < CACHE_TTL <= LLONG_MAX / 1000 ->
  let first := dispatch model CACHE_TTL r w in
  let w2 := advance delay first.2 in
  CACHE_TTL <= Z.of_N delay ->
  model (calls_of (trace w2)) (call_of r) = (d2, Ok result2) ->
  Utf8.encode result2 = Ok b2 ->
  let again := dispatch model CACHE_TTL r w2 in
  live w2 key = None
  /\ again.1 = Ok {| resp_task := label_of r; resp_cached := false;
                     resp_result := result2 |}
  /\ calls_of (trace again.2) = calls_of (trace w) ++ [call_of r; call_of r]
  /\ redis again.2 !! key = Some (RString b2, Some (clock again.2 + CACHE_TTL)).
Proof.
  intros Hk Hl Hm He Hb first w2 Hd Hm2 He2 again.
  pose proof (setex_accepted _ Hb) as Ht.
  assert (first = dispatch model CACHE_TTL r w) as Hfirst by reflexivity.
  rewrite (dispatch_miss_ok _ _ _ _ _ _ _ _ Hk Hl Hm He Ht) in Hfirst.
  assert (live w2 key = None) as Hl2.
  { subst w2. rewrite Hfirst. unfold live. cbn [snd redis advance clock].
    rewrite lookup_insert_eq.
    destruct (Z.ltb_spec (clock w + Z.of_N d + Z.of_N delay)
                (clock w + Z.of_N d + CACHE_TTL)); [lia|done]. }
  split; [exact Hl2|]. subst again.
  rewrite (dispatch_miss_ok _ _ _ _ _ _ _ _ Hk (or_introl Hl2) Hm2 He2 Ht).
  cbn [fst snd trace redis clock]. split; [done|]. split.
  - subst w2. rewrite Hfirst. cbn [snd trace advance].
    rewrite !calls_of_app. cbn. by rewrite <- app_assoc.
  - by rewrite lookup_insert_eq.
Qed.

Lemma expired_entry_is_recomputed_witness :
  let model := model_const 2 (Ok (py "A fox.")) in
  let first := dispatch model 86400 fox initial in
  let w2 := advance 86400 first.2 in
  let again := dispatch model 86400 fox w2 in
  live w2 fox_key = None
  /\ again.1 = Ok {| resp_task := label_of fox; resp_cached := false;
                     resp_result := py "A fox." |}
  /\ calls_of (trace again.2) = calls_of (trace initial) ++ [call_of fox; call_of fox]
  /\ redis again.2 !! fox_key
     = Some (RString (py "A fox."), Some (clock again.2 + 86400)).
Proof.
  intros model first w2 again.
  apply (expired_entry_is_recomputed model 86400 fox initial fox_key
           (py "A fox.") (py "A fox.") (py "A fox.") (py "A fox.") 2 86400 2).
  - vm_compute; reflexivity.
  - left; reflexivity.
  - reflexivity.
  - reflexivity.
  - vm_compute; split; [reflexivity|discriminate].
  - vm_compute; discriminate.
  - reflexivity.
  - reflexivity.
Defined.

(** X4.  With a time to live that is not positive the cache never fills: a
    miss calls the model, the store refuses the write, and the request fails
    with the answer of the model lost. *)
Theorem nonpositive_ttl_miss_fails
    (model : list call -> call -> N * res (list Z)) (CACHE_TTL : Z)
    (r : sync_request) (w : world) (key result b : list Z) (d : N) :
  CACHE_TTL <= 0 ->
  key_of r = Ok key ->
  live w key = None \/ live w key = Some (RString []) ->
  model (calls_of (trace w)) (call_of r) = (d, Ok result) ->
  Utf8.encode result = Ok b ->
  let out := dispatch model CACHE_TTL r w in
  out.1 = Raise ResponseError
  /\ http_status out.1 = 500
  /\ redis out.2 = redis w
  /\ calls_of (trace out.2) = calls_of (trace w) ++ [call_of r].
Proof.
  intros Ht Hk Hl Hm He out. subst out.
  rewrite dispatch_eq. unfold dispatch_unfolded. rewrite Hk, Hm. cbn [fst snd].
  rewrite He, (setex_refused_nonpositive _ Ht).
  destruct Hl as [-> | ->]; cbn [fst snd log advance redis trace http_status];
    (repeat split; [done..|]); rewrite !calls_of_app; cbn;
    by rewrite <- ?app_assoc, ?app_nil_r.
Qed.

Lemma nonpositive_ttl_miss_fails_witness :
  let out := dispatch (model_const 2 (Ok (py "A fox."))) 0 fox initial in
  out.1 = Raise ResponseError
  /\ http_status out.1 = 500
  /\ redis out.2 = redis initial
  /\ calls_of (trace out.2) = calls_of (trace initial) ++ [call_of fox].
Proof.
  apply (nonpositive_ttl_miss_fails (model_const 2 (Ok (py "A fox."))) 0 fox initial
           fox_key (py "A fox.") (py "A fox.") 2).
  - lia.
  - vm_compute; reflexivity.
  - left; reflexivity.
  - reflexivity.
  - reflexivity.
Defined.

Lemma encode_opt_surrogate (s : list Z) :
  Exists (fun c => Utf8.is_surrogate c = true) s -> Utf8.encode_opt s = None.
Proof.
  induction 1 as [c s Hc | c s _ IH]; cbn [Utf8.encode_opt].
  - assert (Utf8.encode_cp c = None) as ->; [|done].
    unfold Utf8.encode_cp. rewrite Hc. unfold Utf8.is_surrogate in Hc.
    apply andb_true_iff in Hc as [H1%Z.leb_le H2%Z.leb_le].
    repeat match goal with
           | |- context [?a <? ?b] => destruct (Z.ltb_spec a b); try lia
           end; done.
  - rewrite IH. by destruct (Utf8.encode_cp c).
Qed.

Lemma encode_opt_total (s : list Z) :
  Forall (fun c => 0 <= c < 0x110000) s ->
  ~ Exists (fun c => Utf8.is_surrogate c = true) s ->
  is_Some (Utf8.encode_opt s).
Proof.
  induction 1 as [|c s Hc _ IH]; intros Hn; cbn [Utf8.encode_opt]; [by eexists|].
  destruct IH as [bs ->]; [intros H; apply Hn; by right|].
  assert (Utf8.is_surrogate c = false) as Hs.
  { destruct (Utf8.is_surrogate c) eqn:E; [|done]. destruct Hn. by left. }
  assert (is_Some (Utf8.encode_cp c)) as [bc ->]; [|by eexists].
  unfold Utf8.encode_cp. rewrite Hs.
  repeat match goal with
         | |- context [?a <? ?b] => destruct (Z.ltb_spec a b); try lia
         end; by eexists.
Qed.

(** X5.  [sha256_text] fails on exactly the strings that have no UTF-8
    encoding: a string with a surrogate code point raises
    [UnicodeEncodeError], every other string has a digest of sixty-four
    lower-case hexadecimal digits. *)
Theorem sha256_text_fails_exactly_on_surrogates (t : list Z) :
  Forall (fun c => 0 <= c < 0x110000) t ->
  (Exists (fun c => Utf8.is_surrogate c = true) t ->
   sha256_text t = Raise UnicodeEncodeError)
  /\ (~ Exists (fun c => Utf8.is_surrogate c = true) t ->
      exists digest, sha256_text t = Ok digest
                     /\ length digest = 64%nat /\ Forall is_hex digest).
Proof.
  intros Hr. unfold sha256_text, Utf8.encode. split.
  - intros H. by rewrite (encode_opt_surrogate t H).
  - intros H. destruct (encode_opt_total t Hr H) as [b ->]. cbn [res_bind].
    eexists; split; [done|]. split; [apply hexdigest_length|apply hexdigest_is_hex].
Qed.

Lemma sha256_text_fails_exactly_on_surrogates_witness :
  Forall (fun c => 0 <= c < 0x110000) [0x61; 0xDC00; 0x62]
  /\ sha256_text [0x61; 0xDC00; 0x62] = Raise UnicodeEncodeError.
Proof.
  assert (Forall (fun c => 0 <= c < 0x110000) [0x61; 0xDC00; 0x62]) as H
    by (repeat constructor; lia).
  split; [exact H|].
  apply (proj1 (sha256_text_fails_exactly_on_surrogates [0x61; 0xDC00; 0x62] H)).
  right. left. reflexivity.
Defined.

(** X6.  A request whose text has a surrogate code point fails while the
    key is computed: the handler raises [UnicodeEncodeError] before it looks
    into the cache or calls the model, and the world is as before. *)
Theorem unencodable_text_fails_before_any_work
    (model : list call -> call -> N * res (list Z)) (CACHE_TTL : Z)
    (r : sync_request) (w : world) :
  Exists (fun c => Utf8.is_surrogate c = true) (content_of r) ->
  dispatch model CACHE_TTL r w = (Raise UnicodeEncodeError, w)
  /\ http_status (dispatch model CACHE_TTL r w).1 = 500.
Proof.
  intros H.
  assert (dispatch model CACHE_TTL r w = (Raise UnicodeEncodeError, w)) as ->; [|done].
  rewrite dispatch_eq. unfold dispatch_unfolded, key_of, cache_key_for_input,
    sha256_text, Utf8.encode.
  by rewrite (encode_opt_surrogate _ H).
Qed.

Lemma unencodable_text_fails_before_any_work_witness :
  let r := Qa {| qa_context := [0x61; 0xD800]; qa_question := py "b" |} in
  Exists (fun c => Utf8.is_surrogate c = true) (content_of r)
  /\ dispatch (model_const 2 (Ok (py "x"))) 86400 r initial
     = (Raise UnicodeEncodeError, initial)
  /\ http_status (dispatch (model_const 2 (Ok (py "x"))) 86400 r initial).1 = 500.
Proof.
  intros r.
  assert (Exists (fun c => Utf8.is_surrogate c = true) (content_of r)) as H
    by (right; left; reflexivity).
  split; [exact H|].
  exact (unencodable_text_fails_before_any_work (model_const 2 (Ok (py "x"))) 86400
           r initial H).
Defined.

Lemma app_delimiter_inj (c : Z) (a a' b b' : list Z) :
  c ∉ a -> c ∉ a' -> a ++ c :: b = a' ++ c :: b' -> a = a' /\ b = b'.
Proof.
  revert a'. induction a as [|x a IH]; intros [|x' a'] Ha Ha' H; cbn in H.
  - by injection H as ->.
  - injection H as -> _. destruct Ha'. by left.
  - injection H as -> _. destruct Ha. by left.
  - injection H as -> H. apply not_elem_of_cons in Ha as [_ Ha].
    apply not_elem_of_cons in Ha' as [_ Ha'].
    destruct (IH a' Ha Ha' H) as [-> ->]. done.
Qed.

(** X7.  The colon keeps the fields of a key apart: for tasks and
    modifiers without a colon, two equal keys have the same task, the same
    modifier and the same digest, so an entry of one task or tone is never
    taken for an entry of another. *)
Theorem cache_key_fields_are_unambiguous
    (text1 text2 task1 task2 extra1 extra2 key : list Z) :
  58 ∉ task1 -> 58 ∉ task2 -> 58 ∉ extra1 -> 58 ∉ extra2 ->
  cache_key_for_input text1 task1 extra1 = Ok key ->
  cache_key_for_input text2 task2 extra2 = Ok key ->
  task1 = task2 /\ extra1 = extra2 /\ sha256_text text1 = sha256_text text2.
Proof.
  intros Ht1 Ht2 He1 He2. unfold cache_key_for_input.
  destruct (sha256_text text1) as [d1|]; [|discriminate].
  destruct (sha256_text text2) as [d2|]; [|discriminate].
  cbn [res_bind]. intros H1 H2.
  assert (py "cache:" ++ task1 ++ py ":" ++ extra1 ++ py ":" ++ d1
          = py "cache:" ++ task2 ++ py ":" ++ extra2 ++ py ":" ++ d2) as E
    by congruence.
  apply app_inv_head in E. change (py ":") with [58] in E. cbn [app] in E.
  apply app_delimiter_inj in E as [-> E]; [|done..].
  apply app_delimiter_inj in E as [-> ->]; done.
Qed.

Lemma cache_key_fields_are_unambiguous_witness :
  let key := py "cache:rewrite:formal:ba7816bf8f01cfea414140de5dae2223b00361a396177a9cb410ff61f20015ad" in
  (58 ∉ py "rewrite") /\ (58 ∉ py "formal")
  /\ cache_key_for_input (py "abc") (py "rewrite") (py "formal") = Ok key
  /\ (py "rewrite" = py "rewrite" /\ py "formal" = py "formal"
      /\ sha256_text (py "abc") = sha256_text (py "abc")).
Proof.
  intros key.
  assert (58 ∉ py "rewrite") as H1 by (apply (bool_decide_unpack _); vm_compute; exact I).
  assert (58 ∉ py "formal") as H2 by (apply (bool_decide_unpack _); vm_compute; exact I).
  assert (cache_key_for_input (py "abc") (py "rewrite") (py "formal") = Ok key) as H3
    by (vm_compute; reflexivity).
  split; [exact H1|]. split; [exact H2|]. split; [exact H3|].
  exact (cache_key_fields_are_unambiguous (py "abc") (py "abc") (py "rewrite")
           (py "rewrite") (py "formal") (py "formal") key H1 H1 H2 H2 H3 H3).
Defined.

(** X8.  The synchronous endpoints keep out of the job store: whatever a
    dispatch does, the job hashes, the queue and the status records are as
    before, and no identifier is drawn. *)
Theorem dispatch_leaves_jobs_alone
    (model : list call -> call -> N * res (list Z)) (CACHE_TTL : Z)
    (r : sync_request) (w : world) (job_id : list Z) :
  let w' := (dispatch model CACHE_TTL r w).2 in
  redis w' !! rq_job_key job_id = redis w !! rq_job_key job_id
  /\ redis w' !! status_key job_id = redis w !! status_key job_id
  /\ redis w' !! rq_queue_key = redis w !! rq_queue_key
  /\ draws w' = draws w.
Proof.
  intros w'. subst w'. repeat split.
  - apply dispatch_other_keys, key_of_not, rq_job_key_not_cache.
  - apply dispatch_other_keys. intros H.
    by apply (cache_key_not_status (status_key job_id) job_id);
      [eapply cache_key_prefix, H|].
  - apply dispatch_other_keys, key_of_not, rq_queue_key_not_cache.
  - apply dispatch_draws.
Qed.

(** ** The job processor *)

(** X9.  A task type outside [summarize], [qa] and [rewrite] makes the job
    processor raise [ValueError] with the type in the message; no payload
    field is read, no model is called and the world is as before. *)
Theorem process_rejects_unknown_task_type
    (model : list call -> call -> N * res (list Z))
    (task_type : list Z) (payload : list (list Z * pyval)) (w : world) :
  task_type <> py "summarize" -> task_type <> py "qa" -> task_type <> py "rewrite" ->
  process_genai_task model task_type payload w
  = (Raise (ValueError (py "Unknown task type: " ++ task_type)), w).
Proof.
  intros H1 H2 H3. unfold process_genai_task. by rewrite !decide_False by done.
Qed.

Lemma process_rejects_unknown_task_type_witness :
  py "summarization" <> py "summarize"
  /\ process_genai_task (model_const 2 (Ok (py "x"))) (py "summarization")
       fox_payload initial
     = (Raise (ValueError (py "Unknown task type: " ++ py "summarization")), initial).
Proof.
  assert (py "summarization" <> py "summarize") as H1 by (vm_compute; discriminate).
  split; [exact H1|].
  apply (process_rejects_unknown_task_type (model_const 2 (Ok (py "x")))
           (py "summarization") fox_payload initial H1).
  - vm_compute; discriminate.
  - vm_compute; discriminate.
Defined.

(** X10.  The job processor is the inference step without the cache: it
    never reads or writes the store and draws no identifier; all it can add
    to the trace is one model call. *)
Theorem process_never_touches_the_store
    (model : list call -> call -> N * res (list Z))
    (task_type : list Z) (payload : list (list Z * pyval)) (w : world) :
  let out := process_genai_task model task_type payload w in
  redis out.2 = redis w
  /\ draws out.2 = draws w
  /\ (out.2 = w \/ exists c, trace out.2 = trace w ++ [ECall c]).
Proof.
  intros out. subst out. unfold process_genai_task.
  assert (forall c, let o := run_pipeline model c w in
            redis o.2 = redis w /\ draws o.2 = draws w
            /\ (o.2 = w \/ exists c', trace o.2 = trace w ++ [ECall c'])) as Hrun.
  { intros c. unfold run_pipeline.
    destruct (model (calls_of (trace w)) c) as [d o]. cbn.
    repeat split. right. by eexists. }
  unfold summarize_text, answer_question, rewrite_tone, mbind, M_bind, lift, getitem, raise.
  repeat case_decide;
    repeat match goal with
           | |- context [dict_get payload ?k] => destruct (dict_get payload k)
           end; cbn [fst snd]; try apply Hrun; repeat split; by left.
Qed.

(** X11.  For a payload that carries the fields of a validated request, the
    job processor makes the model call that the synchronous handler makes on
    a miss, and returns or raises what the model does. *)
Theorem process_makes_the_dispatchers_call
    (model : list call -> call -> N * res (list Z))
    (r : sync_request) (payload : list (list Z * pyval)) (w : world) :
  carries payload r ->
  process_genai_task model (task_of r) payload w = run_pipeline model (call_of r) w
  /\ (process_genai_task model (task_of r) payload w).1
     = (model (calls_of (trace w)) (call_of r)).2
  /\ trace (process_genai_task model (task_of r) payload w).2
     = trace w ++ [ECall (call_of r)].
Proof.
  intros Hc.
  assert (process_genai_task model (task_of r) payload w
          = run_pipeline model (call_of r) w) as ->.
  { destruct r as [req|req|req]; cbn [carries task_of call_of] in *.
    - destruct Hc as (H1 & H2 & H3). unfold process_genai_task.
      rewrite decide_True by done.
      unfold mbind, M_bind, lift, getitem. by rewrite H1, H2, H3.
    - destruct Hc as (H1 & H2). unfold process_genai_task.
      rewrite decide_False by (vm_compute; discriminate).
      rewrite decide_True by done.
      unfold mbind, M_bind, lift, getitem. by rewrite H1, H2.
    - destruct Hc as (H1 & H2). unfold process_genai_task.
      rewrite decide_False by (vm_compute; discriminate).
      rewrite decide_False by (vm_compute; discriminate).
      rewrite decide_True by done.
      unfold mbind, M_bind, lift, getitem. by rewrite H1, H2. }
  unfold run_pipeline. by destruct (model (calls_of (trace w)) (call_of r)).
Qed.

Lemma process_makes_the_dispatchers_call_witness :
  let model := model_const 2 (Ok (py "A fox.")) in
  carries fox_payload fox
  /\ process_genai_task model (task_of fox) fox_payload initial
     = run_pipeline model (call_of fox) initial
  /\ (process_genai_task model (task_of fox) fox_payload initial).1
     = (model (calls_of (trace initial)) (call_of fox)).2
  /\ trace (process_genai_task model (task_of fox) fox_payload initial).2
     = trace initial ++ [ECall (call_of fox)].
Proof.
  intros model.
  assert (carries fox_payload fox) as H by (repeat split).
  split; [exact H|].
  exact (process_makes_the_dispatchers_call model fox fox_payload initial H).
Defined.

(** X12.  The defaults of [/summarize] do not reach the job path: a body
    with the text alone passes the validation of [/summarize], which fills in
    the bounds 150 and 25, but as the payload of a [summarize] job it makes
    the processor raise [KeyError] for [max_length] before any model call. *)
Theorem summarize_job_needs_length_bounds
    (model : list call -> call -> N * res (list Z)) (convert_int : pyval -> option Z)
    (payload : list (list Z * pyval)) (text : list Z) (w : world) :
  dict_get payload (py "text") = Some (VStr text) ->
  dict_get payload (py "max_length") = None ->
  dict_get payload (py "min_length") = None ->
  parse_SummarizeRequest convert_int (VDict payload)
  = Some {| sr_text := text; sr_max_length := Some 150; sr_min_length := Some 25 |}
  /\ process_genai_task model (py "summarize") payload w
     = (Raise (KeyError (py "max_length")), w).
Proof.
  intros H1 H2 H3. split.
  - cbn [parse_SummarizeRequest]. by rewrite H1, H2, H3.
  - unfold process_genai_task. rewrite decide_True by done.
    unfold mbind, M_bind, lift, getitem. by rewrite H1, H2.
Qed.

Lemma summarize_job_needs_length_bounds_witness :
  dict_get text_only (py "text") = Some (VStr (py "The quick brown fox..."))
  /\ parse_SummarizeRequest convert_sample (VDict text_only)
     = Some {| sr_text := py "The quick brown fox...";
               sr_max_length := Some 150; sr_min_length := Some 25 |}
  /\ process_genai_task (model_const 2 (Ok (py "x"))) (py "summarize") text_only initial
     = (Raise (KeyError (py "max_length")), initial).
Proof.
  split; [reflexivity|].
  exact (summarize_job_needs_length_bounds (model_const 2 (Ok (py "x"))) convert_sample
           text_only (py "The quick brown fox...") initial eq_refl eq_refl eq_refl).
Defined.

(** ** The job endpoints *)

Lemma status_str_finished (s : JobStatus) : status_str s = py "finished" <-> s = Finished.
Proof.
  split; [|by intros ->].
  destruct s; intros H; try reflexivity; vm_compute in H; discriminate.
Qed.

Lemma result_follows_status_aux (job_id : list Z) (j : job_data) (w : world) :
  live w (rq_job_key (before_colon job_id)) = Some (RHash j) ->
  job_status job_id w
  = (Ok {| jr_job_id := job_id; jr_status := status_str (jd_status j);
           jr_result := None |},
     log (EFetch job_id) w)
  /\ job_result job_id w
     = (Ok {| jr_job_id := job_id; jr_status := status_str (jd_status j);
              jr_result := match jd_status j with
                           | Finished => Some (jd_result j)
                           | _ => None
                           end |},
        log (EFetch job_id) w).
Proof.
  intros H. split; [by apply job_status_found|].
  unfold job_result, mbind, M_bind, attempt, Job_fetch, lift. rewrite H.
  cbn [Job_get_status Job_result].
  destruct (decide (status_str (jd_status j) = py "finished")) as [E|E].
  - apply status_str_finished in E. by rewrite E.
  - by destruct (jd_status j) eqn:Es.
Qed.

(** X13.  For a job that can be resolved (rq looks for it under the
    identifier up to its first colon), [/result] reports the status that
    [/status] reports, and carries the return value of the job exactly when
    that status is [finished]; neither endpoint changes the store. *)
Theorem result_follows_status (job_id : list Z) (j : job_data) (w : world) :
  live w (rq_job_key (before_colon job_id)) = Some (RHash j) ->
  job_status job_id w
  = (Ok {| jr_job_id := job_id; jr_status := status_str (jd_status j);
           jr_result := None |},
     log (EFetch job_id) w)
  /\ job_result job_id w
     = (Ok {| jr_job_id := job_id; jr_status := status_str (jd_status j);
              jr_result := match jd_status j with
                           | Finished => Some (jd_result j)
                           | _ => None
                           end |},
        log (EFetch job_id) w).
Proof. apply result_follows_status_aux. Qed.

Lemma result_follows_status_witness :
  let j := {| jd_task := py "qa"; jd_payload := paris_payload;
              jd_status := Finished; jd_result := VStr (py "Paris") |} in
  let w := World {[ rq_job_key (py "job-1") := (RHash j, Some 900) ]} 500 1 [] in
  live w (rq_job_key (py "job-1")) = Some (RHash j)
  /\ job_result (py "job-1") w
     = (Ok {| jr_job_id := py "job-1"; jr_status := py "finished";
              jr_result := Some (VStr (py "Paris")) |},
        log (EFetch (py "job-1")) w).
Proof.
  intros j w.
  assert (live w (rq_job_key (py "job-1")) = Some (RHash j)) as H
    by (vm_compute; reflexivity).
  split; [exact H|].
  exact (proj2 (result_follows_status (py "job-1") j w H)).
Defined.

(** The job hash that a submission saves has no time of expiry. *)
Lemma submit_job_entry
    (uuid4 : nat -> list Z) (t : TaskType) (payload : list (list Z * pyval))
    (w : world) :
  rq_consistent uuid4 w ->
  redis (submit_job uuid4 t payload w).2 !! rq_job_key (uuid4 (draws w))
  = Some (RHash {| jd_task := task_str t; jd_payload := payload;
                   jd_status := Queued; jd_result := VNone |}, None).
Proof.
  intros (Hq & Hfresh & _). pose proof (Hfresh (draws w) (le_n _)) as Hj.
  unfold submit_job, enqueue, mbind, M_bind, mret, M_ret, redis_setex.
  rewrite encode_queued, setex_3600. unfold live. cbn [redis log draw clock].
  rewrite Hj. revert Hq.
  destruct (redis w !! rq_queue_key) as [[[b|j|q|st rs] [e|]]|]; intros Hq; try done;
    try destruct (clock w <? e); cbn;
    rewrite lookup_insert_ne by apply status_key_not_rq_job;
    rewrite lookup_insert_ne by (apply not_eq_sym, rq_job_key_not_queue);
    by rewrite lookup_insert_eq.
Qed.

(** X14.  The status record that a submission writes is never read: with
    no worker at work a submitted job is reported [queued], by [/status] and
    by [/result], however much time passes, although the record itself is
    gone after 3600 seconds. *)
Theorem queued_outlives_the_status_record
    (uuid4 : nat -> list Z) (t : TaskType) (payload : list (list Z * pyval))
    (w : world) (delay : N) :
  rq_consistent uuid4 w ->
  let job_id := uuid4 (draws w) in
  let later := advance delay (submit_job uuid4 t payload w).2 in
  (job_status job_id later).1
  = Ok {| jr_job_id := job_id; jr_status := py "queued"; jr_result := None |}
  /\ (job_result job_id later).1
     = Ok {| jr_job_id := job_id; jr_status := py "queued"; jr_result := None |}
  /\ (3600 <= Z.of_N delay -> live later (status_key job_id) = None).
Proof.
  intros Hw job_id later.
  pose proof (submit_job_entry uuid4 t payload w Hw) as Hj. fold job_id in Hj.
  destruct (submit_job_ok uuid4 t payload w Hw)
    as (w' & Hrun & _ & _ & _ & Hs & _ & Hc & _).
  fold job_id in Hrun, Hs. subst later. rewrite Hrun in *. cbn [snd] in *.
  assert (live (advance delay w') (rq_job_key job_id)
          = Some (RHash {| jd_task := task_str t; jd_payload := payload;
                           jd_status := Queued; jd_result := VNone |})) as Hl.
  { unfold live. cbn [redis advance]. by rewrite Hj. }
  rewrite <- (before_colon_id job_id) in Hl at 1 by apply Hw.
  destruct (result_follows_status_aux job_id _ _ Hl) as [-> ->].
  split; [done|]. split; [done|].
  intros Hd. unfold live. cbn [redis advance clock]. rewrite Hs, Hc.
  destruct (Z.ltb_spec (clock w + Z.of_N delay) (clock w + 3600)); [lia|done].
Qed.

Lemma handle_submit
    (model : list call -> call -> N * res (list Z)) (uuid4 : nat -> list Z)
    (CACHE_TTL : Z) (convert_int : pyval -> option Z)
    (t : TaskType) (payload : list (list Z * pyval)) (w : world) :
  (handle model uuid4 CACHE_TTL convert_int
     (PostSubmit (task_str t) (VDict payload)) w).2
  = (submit_job uuid4 t payload w).2.
Proof.
  assert (parse_task_type (task_str t) = Some t) as Hp by (by destruct t).
  cbn [handle parse_payload]. rewrite Hp.
  unfold validated, mbind, option_bind, M_bind; unfold mret, M_ret; cbn [fst snd].
  by destruct (submit_job uuid4 t payload w) as [[]].
Qed.

Lemma submit_consistent
    (uuid4 : nat -> list Z) (t : TaskType) (payload : list (list Z * pyval))
    (w : world) :
  (forall m n, uuid4 m = uuid4 n -> m = n) ->
  rq_consistent uuid4 w -> rq_consistent uuid4 (submit_job uuid4 t payload w).2.
Proof.
  intros Hinj Hw.
  rewrite <- (handle_submit (fun _ _ => (0%N, Raise ResponseError)) uuid4 0
                (fun _ => None)).
  by apply handle_consistent.
Qed.

Lemma queued_outlives_the_status_record_witness :
  let later := advance 7200 (submit_job uuid4_sample TQa paris_payload initial).2 in
  rq_consistent uuid4_sample initial
  /\ (job_status (uuid4_sample 0) later).1
     = Ok {| jr_job_id := uuid4_sample 0; jr_status := py "queued"; jr_result := None |}
  /\ (job_result (uuid4_sample 0) later).1
     = Ok {| jr_job_id := uuid4_sample 0; jr_status := py "queued"; jr_result := None |}
  /\ (3600 <= Z.of_N 7200 -> live later (status_key (uuid4_sample 0)) = None).
Proof.
  intros later. split;
    [exact (initial_consistent uuid4_sample uuid4_sample_colon_free)|].
  exact (queued_outlives_the_status_record uuid4_sample TQa paris_payload initial 7200
           (initial_consistent uuid4_sample uuid4_sample_colon_free)).
Defined.

Lemma handle_keeps_job
    (model : list call -> call -> N * res (list Z)) (uuid4 : nat -> list Z)
    (CACHE_TTL : Z) (convert_int : pyval -> option Z)
    (r : request) (w : world) (job_id : list Z) (v : rvalue * option Z) :
  rq_consistent uuid4 w ->
  redis w !! rq_job_key job_id = Some v ->
  redis (handle model uuid4 CACHE_TTL convert_int r w).2 !! rq_job_key job_id = Some v.
Proof.
  intros Hw Hv.
  destruct (handle_cases model uuid4 CACHE_TTL convert_int r w)
    as [-> | [[sr ->] | [(t & p & ->) | [id ->]]]]; try done.
  - rewrite dispatch_other_keys; [done|]. apply key_of_not, rq_job_key_not_cache.
  - destruct (submit_job_ok uuid4 t p w Hw)
      as (w' & -> & _ & _ & _ & _ & _ & _ & _ & Hframe).
    cbn [snd]. rewrite Hframe; [done| | |].
    + intros E. destruct Hw as (_ & Hfresh & _).
      rewrite E, (Hfresh (draws w) (le_n _)) in Hv. discriminate.
    + apply rq_job_key_not_queue.
    + apply not_eq_sym, status_key_not_rq_job.
Qed.

(** X15.  The job record belongs to the worker: no run of requests, of
    whatever kind, changes or removes the hash of a job that exists, so the
    status and the result that the endpoints report for it change only when
    a worker (or the expiry of the hash) changes them. *)
Theorem requests_never_change_a_job
    (model : list call -> call -> N * res (list Z)) (uuid4 : nat -> list Z)
    (CACHE_TTL : Z) (convert_int : pyval -> option Z)
    (rs : list (N * request)) (w : world) (job_id : list Z)
    (v : rvalue * option Z) :
  (forall m n, uuid4 m = uuid4 n -> m = n) ->
  rq_consistent uuid4 w ->
  redis w !! rq_job_key job_id = Some v ->
  redis (serve model uuid4 CACHE_TTL convert_int rs w) !! rq_job_key job_id = Some v.
Proof.
  intros Hinj. revert w. induction rs as [|[d r] rs IH]; intros w Hw Hv;
    cbn [serve]; [done|].
  apply IH.
  - by apply handle_consistent.
  - by apply handle_keeps_job.
Qed.

Lemma requests_never_change_a_job_witness :
  let model := model_const 2 (Ok (py "Paris")) in
  let w := (submit_job uuid4_sample TQa paris_payload initial).2 in
  let v := (RHash {| jd_task := py "qa"; jd_payload := paris_payload;
                     jd_status := Queued; jd_result := VNone |}, None) in
  rq_consistent uuid4_sample w
  /\ redis w !! rq_job_key (py "job-1") = Some v
  /\ redis (serve model uuid4_sample 86400 convert_sample sample_run w)
       !! rq_job_key (py "job-1")
     = Some v.
Proof.
  intros model w v.
  assert (rq_consistent uuid4_sample w) as Hw
    by exact (submit_consistent uuid4_sample TQa paris_payload initial
                uuid4_sample_inj
                (initial_consistent uuid4_sample uuid4_sample_colon_free)).
  assert (redis w !! rq_job_key (py "job-1") = Some v) as Hv
    by (vm_compute; reflexivity).
  split; [exact Hw|]. split; [exact Hv|].
  exact (requests_never_change_a_job model uuid4_sample 86400 convert_sample
           sample_run w (py "job-1") v uuid4_sample_inj Hw Hv).
Defined.

(** X16.  Jobs queue in the order of submission under identifiers of their
    own: two submissions in a row return two different identifiers, the
    queue grows by the first and then the second, and both jobs are reported
    [queued]. *)
Theorem submissions_queue_in_order
    (uuid4 : nat -> list Z)
    (t1 t2 : TaskType) (p1 p2 : list (list Z * pyval)) (w : world) :
  (forall m n, uuid4 m = uuid4 n -> m = n) ->
  rq_consistent uuid4 w ->
  let id1 := uuid4 (draws w) in
  let id2 := uuid4 (S (draws w)) in
  let first := submit_job uuid4 t1 p1 w in
  let second := submit_job uuid4 t2 p2 first.2 in
  first.1 = Ok {| sub_job_id := id1; sub_status := py "queued" |}
  /\ second.1 = Ok {| sub_job_id := id2; sub_status := py "queued" |}
  /\ id1 <> id2
  /\ pending second.2 = pending w ++ [id1; id2]
  /\ (job_status id1 second.2).1
     = Ok {| jr_job_id := id1; jr_status := py "queued"; jr_result := None |}
  /\ (job_status id2 second.2).1
     = Ok {| jr_job_id := id2; jr_status := py "queued"; jr_result := None |}.
Proof.
  intros Hinj Hw id1 id2 first second. subst first second.
  pose proof (submit_consistent uuid4 t1 p1 w Hinj Hw) as Hw1.
  destruct (submit_job_ok uuid4 t1 p1 w Hw)
    as (w1 & Hrun1 & Hj1 & Hq1 & _ & _ & _ & Hc1 & Hd1 & _).
  rewrite Hrun1 in *. cbn [fst snd] in *.
  destruct (submit_job_ok uuid4 t2 p2 w1 Hw1)
    as (w2 & Hrun2 & Hj2 & Hq2 & _ & _ & _ & Hc2 & _ & Hframe2).
  rewrite Hd1 in Hrun2, Hj2, Hq2, Hframe2.
  fold id1 in Hj1, Hq1. fold id2 in Hrun2, Hj2, Hq2, Hframe2.
  rewrite Hrun2. cbn [fst snd].
  assert (id1 <> id2) as Hne by (intros E%Hinj; lia).
  split; [done|]. split; [done|]. split; [exact Hne|].
  split; [by rewrite Hq2, Hq1, <- app_assoc|].
  assert (before_colon id1 = id1 /\ before_colon id2 = id2) as [Hb1 Hb2]
    by (split; apply before_colon_id, Hw).
  rewrite <- Hb2 in Hj2 at 1.
  split; [|by rewrite (job_status_found _ _ _ Hj2)].
  assert (live w2 (rq_job_key id1) = live w1 (rq_job_key id1)) as Hl.
  { unfold live. rewrite Hc2, Hframe2; [done| | |].
    - intros E%rq_job_key_inj. done.
    - apply rq_job_key_not_queue.
    - apply not_eq_sym, status_key_not_rq_job. }
  rewrite Hj1 in Hl. rewrite <- Hb1 in Hl at 1.
  by rewrite (job_status_found _ _ _ Hl).
Qed.

Lemma submissions_queue_in_order_witness :
  let first := submit_job uuid4_sample TQa paris_payload initial in
  let second := submit_job uuid4_sample TSummarize fox_payload first.2 in
  rq_consistent uuid4_sample initial
  /\ first.1 = Ok {| sub_job_id := uuid4_sample 0; sub_status := py "queued" |}
  /\ second.1 = Ok {| sub_job_id := uuid4_sample 1; sub_status := py "queued" |}
  /\ uuid4_sample 0 <> uuid4_sample 1
  /\ pending second.2 = pending initial ++ [uuid4_sample 0; uuid4_sample 1]
  /\ (job_status (uuid4_sample 0) second.2).1
     = Ok {| jr_job_id := uuid4_sample 0; jr_status := py "queued"; jr_result := None |}
  /\ (job_status (uuid4_sample 1) second.2).1
     = Ok {| jr_job_id := uuid4_sample 1; jr_status := py "queued"; jr_result := None |}.
Proof.
  intros first second. split;
    [exact (initial_consistent uuid4_sample uuid4_sample_colon_free)|].
  exact (submissions_queue_in_order uuid4_sample
           TQa TSummarize paris_payload fox_payload initial
           uuid4_sample_inj (initial_consistent uuid4_sample uuid4_sample_colon_free)).
Defined.

(** ** The pipeline registry *)

Section PipelineFacts.
Import Pipelines.

Variable pipeline_fails : nat -> list Z -> list Z -> option exn.

Lemma get_pipeline_loaded (task : list Z) (p : pipe) (s : registry) :
  loaded s !! task = Some p -> get_pipeline pipeline_fails task s = (Ok p, s).
Proof. intros H. unfold get_pipeline. by rewrite H. Qed.

Lemma load_into_cases (task kind name : list Z) (s : registry) :
  let out := load_into pipeline_fails task kind name s in
  loads out.2 = loads s ++ [(kind, name)]
  /\ ((exists e, out.1 = Raise e /\ loaded out.2 = loaded s)
      \/ (out.1 = Ok (Pipe kind name (length (loads s)))
          /\ loaded out.2 = <[task := Pipe kind name (length (loads s))]> (loaded s))).
Proof.
  unfold load_into, pipeline.
  destruct (pipeline_fails (length (loads s)) kind name) as [e|]; cbn.
  - split; [done|]. left. by exists e.
  - split; [done|]. by right.
Qed.

Lemma get_pipeline_keeps (task task' : list Z) (p : pipe) (s : registry) :
  loaded s !! task = Some p ->
  loaded (get_pipeline pipeline_fails task' s).2 !! task = Some p.
Proof.
  intros H. unfold get_pipeline.
  destruct (loaded s !! task') as [p'|] eqn:E; [done|].
  assert (task' <> task) as Hne by congruence.
  assert (forall kind name,
            loaded (load_into pipeline_fails task' kind name s).2 !! task = Some p) as Hl.
  { intros kind name.
    destruct (load_into_cases task' kind name s) as [_ [(e & _ & ->) | [_ ->]]];
      [done|]. by rewrite lookup_insert_ne. }
  repeat case_decide; try apply Hl; done.
Qed.

Lemma get_all_keeps (tasks : list (list Z)) (task : list Z) (p : pipe) (s : registry) :
  loaded s !! task = Some p ->
  loaded (get_all pipeline_fails tasks s) !! task = Some p.
Proof.
  revert s. induction tasks as [|t tasks IH]; intros s H; cbn [get_all]; [done|].
  by apply IH, get_pipeline_keeps.
Qed.

Lemma get_pipeline_ok (task : list Z) (p : pipe) (s : registry) :
  (get_pipeline pipeline_fails task s).1 = Ok p ->
  loaded (get_pipeline pipeline_fails task s).2 !! task = Some p.
Proof.
  unfold get_pipeline. destruct (loaded s !! task) as [p'|] eqn:E.
  { cbn. by intros [= <-]. }
  assert (forall kind name,
            (load_into pipeline_fails task kind name s).1 = Ok p ->
            loaded (load_into pipeline_fails task kind name s).2 !! task = Some p) as Hl.
  { intros kind name.
    destruct (load_into_cases task kind name s) as [_ [(e & -> & _) | [-> ->]]];
      [done|]. intros [= <-]. by rewrite lookup_insert_eq. }
  repeat case_decide; try apply Hl; done.
Qed.

(** X17.  Each pipeline is loaded at most once: after a call of
    [get_pipeline] has returned a pipeline for a task, every later call for
    that task, whatever was asked for in between, returns the same pipeline
    without loading anything. *)
Theorem pipeline_is_loaded_once
    (task : list Z) (p : pipe) (s : registry) (tasks : list (list Z)) :
  (get_pipeline pipeline_fails task s).1 = Ok p ->
  let s' := get_all pipeline_fails tasks (get_pipeline pipeline_fails task s).2 in
  get_pipeline pipeline_fails task s' = (Ok p, s').
Proof.
  intros H s'. apply get_pipeline_loaded. subst s'.
  by apply get_all_keeps, get_pipeline_ok.
Qed.

(** X18.  A task name that is not in the registry and is none of
    [summarization], [qa] and [rewrite] makes [get_pipeline] raise
    [ValueError]; nothing is loaded and the registry is as before. *)
Theorem get_pipeline_rejects_unsupported_task (task : list Z) (s : registry) :
  loaded s !! task = None ->
  task <> py "summarization" -> task <> py "qa" -> task <> py "rewrite" ->
  get_pipeline pipeline_fails task s
  = (Raise (ValueError (py "Unsupported task: " ++ task)), s).
Proof.
  intros H H1 H2 H3. unfold get_pipeline. rewrite H.
  by rewrite !decide_False by done.
Qed.

Lemma failed_load_keeps_registry (task : list Z) (e : exn) (s : registry) :
  (get_pipeline pipeline_fails task s).1 = Raise e ->
  loaded (get_pipeline pipeline_fails task s).2 = loaded s
  /\ loaded s !! task = None.
Proof.
  unfold get_pipeline. destruct (loaded s !! task) as [p|] eqn:E; [done|].
  assert (forall kind name,
            (load_into pipeline_fails task kind name s).1 = Raise e ->
            loaded (load_into pipeline_fails task kind name s).2 = loaded s) as Hl.
  { intros kind name.
    by destruct (load_into_cases task kind name s) as [_ [(e' & _ & ->) | [-> _]]]. }
  intros H. split; [|done]. revert H.
  repeat case_decide; try apply Hl; done.
Qed.

(** X19.  A pipeline that fails to load is not remembered: when
    [get_pipeline] raises, the registry holds what it held before, so the
    next call for the task tries again. *)
Theorem failed_load_is_not_cached (task : list Z) (e : exn) (s : registry) :
  (get_pipeline pipeline_fails task s).1 = Raise e ->
  loaded (get_pipeline pipeline_fails task s).2 = loaded s
  /\ loaded s !! task = None.
Proof. apply failed_load_keeps_registry. Qed.

(** The table of [get_pipeline]: which library task and which model each
    task name stands for. *)
Lemma get_pipeline_binding (task : list Z) (p : pipe) (s : registry) :
  loaded s !! task = None ->
  (get_pipeline pipeline_fails task s).1 = Ok p ->
  (task = py "summarization" /\ pipe_kind p = py "summarization"
   /\ pipe_model p = py "sshleifer/distilbart-cnn-12-6")
  \/ (task = py "qa" /\ pipe_kind p = py "question-answering"
      /\ pipe_model p = py "distilbert-base-cased-distilled-squad")
  \/ (task = py "rewrite" /\ pipe_kind p = py "text2text-generation"
      /\ pipe_model p = py "google/flan-t5-small").
Proof.
  intros E. unfold get_pipeline. rewrite E.
  assert (forall kind name,
            (load_into pipeline_fails task kind name s).1 = Ok p ->
            pipe_kind p = kind /\ pipe_model p = name) as Hl.
  { intros kind name.
    destruct (load_into_cases task kind name s) as [_ [(e & -> & _) | [-> _]]];
      [done|]. by intros [= <-]. }
  repeat case_decide; try done.
  - intros [? ?]%Hl. by left.
  - intros [? ?]%Hl. right; by left.
  - intros [? ?]%Hl. right; by right.
Qed.

(** X20.  The registry binds each task to its own model: whatever was
    asked of an empty registry, an entry is under one of the three task
    names and holds the pipeline of the library task and the model that
    [get_pipeline] names for it. *)
Theorem registry_binds_each_task_to_its_model
    (tasks : list (list Z)) (task : list Z) (p : pipe) :
  loaded (get_all pipeline_fails tasks empty) !! task = Some p ->
  (task = py "summarization" /\ pipe_kind p = py "summarization"
   /\ pipe_model p = py "sshleifer/distilbart-cnn-12-6")
  \/ (task = py "qa" /\ pipe_kind p = py "question-answering"
      /\ pipe_model p = py "distilbert-base-cased-distilled-squad")
  \/ (task = py "rewrite" /\ pipe_kind p = py "text2text-generation"
      /\ pipe_model p = py "google/flan-t5-small").
Proof.
  assert (forall s,
    (forall t q, loaded s !! t = Some q ->
       (t = py "summarization" /\ pipe_kind q = py "summarization"
        /\ pipe_model q = py "sshleifer/distilbart-cnn-12-6")
       \/ (t = py "qa" /\ pipe_kind q = py "question-answering"
           /\ pipe_model q = py "distilbert-base-cased-distilled-squad")
       \/ (t = py "rewrite" /\ pipe_kind q = py "text2text-generation"
           /\ pipe_model q = py "google/flan-t5-small")) ->
    forall t q, loaded (get_all pipeline_fails tasks s) !! t = Some q ->
       (t = py "summarization" /\ pipe_kind q = py "summarization"
        /\ pipe_model q = py "sshleifer/distilbart-cnn-12-6")
       \/ (t = py "qa" /\ pipe_kind q = py "question-answering"
           /\ pipe_model q = py "distilbert-base-cased-distilled-squad")
       \/ (t = py "rewrite" /\ pipe_kind q = py "text2text-generation"
           /\ pipe_model q = py "google/flan-t5-small")) as Hinv.
  { induction tasks as [|t0 tasks IH]; intros s Hs; cbn [get_all]; [exact Hs|].
    apply IH. intros t q Hq.
    destruct (loaded s !! t0) as [p0|] eqn:E0.
    { rewrite (get_pipeline_loaded _ _ _ E0) in Hq. by apply Hs. }
    destruct (get_pipeline pipeline_fails t0 s) as [[p1|e] s1] eqn:Eg.
    - destruct (decide (t = t0)) as [->|Hne].
      + pose proof (get_pipeline_ok t0 p1 s) as Hok. rewrite Eg in Hok.
        cbn [fst snd] in *. rewrite (Hok eq_refl) in Hq. injection Hq as <-.
        apply (get_pipeline_binding t0 p1 s E0). by rewrite Eg.
      + apply Hs. cbn [snd] in Hq. rewrite <- Hq.
        destruct (loaded s !! t) as [q0|] eqn:Et.
        * pose proof (get_pipeline_keeps t t0 q0 s Et) as Hk.
          rewrite Eg in Hk. cbn [snd] in Hk. by rewrite Hk.
        * revert Eg. unfold get_pipeline. rewrite E0.
          assert (forall kind name,
                    load_into pipeline_fails t0 kind name s = (Ok p1, s1) ->
                    None = loaded s1 !! t) as Hl.
          { intros kind name Hload.
            destruct (load_into_cases t0 kind name s) as [_ [(e & He & _) | [_ Hins]]];
              rewrite Hload in *; cbn [fst snd] in *; [done|].
            by rewrite Hins, lookup_insert_ne. }
          repeat case_decide; try apply Hl; done.
    - apply Hs. pose proof (failed_load_keeps_registry t0 e s) as Hf.
      rewrite Eg in Hf. cbn [fst snd] in *. destruct (Hf eq_refl) as [<- _]. done. }
  apply Hinv. intros t q Hq. cbn in Hq. by rewrite lookup_empty in Hq.
Qed.

End PipelineFacts.

Lemma pipeline_is_loaded_once_witness :
  let first := Pipelines.get_pipeline never_fails (py "qa") Pipelines.empty in
  let s' := Pipelines.get_all never_fails
              [py "summarization"; py "summarize"; py "qa"; py "rewrite"] first.2 in
  first.1 = Ok (Pipelines.Pipe (py "question-answering")
                  (py "distilbert-base-cased-distilled-squad") 0)
  /\ Pipelines.get_pipeline never_fails (py "qa") s'
     = (Ok (Pipelines.Pipe (py "question-answering")
              (py "distilbert-base-cased-distilled-squad") 0), s').
Proof.
  intros first s'.
  assert (first.1 = Ok (Pipelines.Pipe (py "question-answering")
                          (py "distilbert-base-cased-distilled-squad") 0)) as H
    by (vm_compute; reflexivity).
  split; [exact H|].
  exact (pipeline_is_loaded_once never_fails (py "qa") _ Pipelines.empty
           [py "summarization"; py "summarize"; py "qa"; py "rewrite"] H).
Defined.

Lemma get_pipeline_rejects_unsupported_task_witness :
  Pipelines.loaded Pipelines.empty !! py "summarize" = None
  /\ py "summarize" <> py "summarization"
  /\ Pipelines.get_pipeline never_fails (py "summarize") Pipelines.empty
     = (Raise (ValueError (py "Unsupported task: " ++ py "summarize")), Pipelines.empty).
Proof.
  assert (py "summarize" <> py "summarization") as H1 by (vm_compute; discriminate).
  split; [reflexivity|]. split; [exact H1|].
  apply (get_pipeline_rejects_unsupported_task never_fails (py "summarize")
           Pipelines.empty eq_refl H1).
  - vm_compute; discriminate.
  - vm_compute; discriminate.
Defined.

Lemma failed_load_is_not_cached_witness :
  let out := Pipelines.get_pipeline first_load_fails (py "rewrite") Pipelines.empty in
  out.1 = Raise (PipelineError 7)
  /\ Pipelines.loaded out.2 = Pipelines.loaded Pipelines.empty
  /\ (Pipelines.get_pipeline first_load_fails (py "rewrite") out.2).1
     = Ok (Pipelines.Pipe (py "text2text-generation") (py "google/flan-t5-small") 1).
Proof.
  intros out.
  assert (out.1 = Raise (PipelineError 7)) as H by (vm_compute; reflexivity).
  split; [exact H|]. split.
  - exact (proj1 (failed_load_is_not_cached first_load_fails (py "rewrite")
                    (PipelineError 7) Pipelines.empty H)).
  - vm_compute; reflexivity.
Defined.

Lemma registry_binds_each_task_to_its_model_witness :
  let s := Pipelines.get_all never_fails [py "rewrite"; py "qa"] Pipelines.empty in
  let p := Pipelines.Pipe (py "question-answering")
             (py "distilbert-base-cased-distilled-squad") 1 in
  Pipelines.loaded s !! py "qa" = Some p
  /\ ((py "qa" = py "summarization" /\ Pipelines.pipe_kind p = py "summarization"
       /\ Pipelines.pipe_model p = py "sshleifer/distilbart-cnn-12-6")
      \/ (py "qa" = py "qa" /\ Pipelines.pipe_kind p = py "question-answering"
          /\ Pipelines.pipe_model p = py "distilbert-base-cased-distilled-squad")
      \/ (py "qa" = py "rewrite" /\ Pipelines.pipe_kind p = py "text2text-generation"
          /\ Pipelines.pipe_model p = py "google/flan-t5-small")).
Proof.
  intros s p.
  assert (Pipelines.loaded s !! py "qa" = Some p) as H by (vm_compute; reflexivity).
  split; [exact H|].
  exact (registry_binds_each_task_to_its_model never_fails [py "rewrite"; py "qa"]
           (py "qa") p H).
Defined.

(** ** Errors of the job lookups, and keys of different requests *)

(** X21.  Only the error of [Job.fetch] is caught.  Both lookups leave the
    store as it is.  When [Job.fetch] raises, [/status] answers [unknown] and
    [/result] raises the 404.  When it returns a job, what [job.get_status()]
    or [job.result] raises is raised by the handler, since both are read
    after the [try]; otherwise [/status] answers with the status, and
    [/result] with the status and, when that is [finished], the return
    value. *)
Theorem only_the_fetch_error_is_caught (job_id : list Z) (w : world) :
  (job_status job_id w).2 = log (EFetch job_id) w
  /\ (job_result job_id w).2 = log (EFetch job_id) w
  /\ (forall e, (Job_fetch job_id w).1 = Raise e ->
        (job_status job_id w).1
        = Ok {| jr_job_id := job_id; jr_status := py "unknown"; jr_result := None |}
        /\ (job_result job_id w).1 = Raise (HTTPException 404 (py "Job not found")))
  /\ (forall job, (Job_fetch job_id w).1 = Ok job ->
        (forall e, Job_get_status job = Raise e ->
           (job_status job_id w).1 = Raise e /\ (job_result job_id w).1 = Raise e)
        /\ (forall st, Job_get_status job = Ok st ->
              (job_status job_id w).1
              = Ok {| jr_job_id := job_id; jr_status := status_str st;
                      jr_result := None |}
              /\ (st <> Finished ->
                  (job_result job_id w).1
                  = Ok {| jr_job_id := job_id; jr_status := status_str st;
                          jr_result := None |})
              /\ (st = Finished ->
                  (forall v, Job_result job = Ok v ->
                     (job_result job_id w).1
                     = Ok {| jr_job_id := job_id; jr_status := py "finished";
                             jr_result := Some v |})
                  /\ (forall e, Job_result job = Raise e ->
                        (job_result job_id w).1 = Raise e)))).
Proof.
  split; [apply job_status_world|]. split; [apply job_result_world|].
  split.
  - intros e H.
    by rewrite (job_status_fetch_raises _ _ _ H), (job_result_fetch_raises _ _ _ H).
  - intros job H. unfold job_status, job_result, mbind, M_bind, attempt, lift.
    destruct (Job_fetch job_id w) as [out w']. cbn [fst] in H. subst out.
    split.
    + by intros e ->.
    + intros st ->. split; [done|]. split.
      * intros Hst. rewrite decide_False; [done|].
        by intros E%status_str_finished.
      * intros ->. rewrite decide_True by done. split; by intros ? ->.
Qed.

(** A job hash whose status cannot be read: the lookup of the job succeeds,
    the error of the reading leaves the handler, and the answer is an
    internal server error on both endpoints. *)
Example unreadable_status_is_a_server_error :
  let w := World {[ rq_job_key (py "job-1")
                    := (RHashOther (Raise ResponseError) (Ok VNone), None) ]} 0 1 [] in
  let status := handle (model_const 1 (Ok [])) uuid4_sample 86400 convert_sample
                  (GetStatus (py "job-1")) w in
  let result := handle (model_const 1 (Ok [])) uuid4_sample 86400 convert_sample
                  (GetResult (py "job-1")) w in
  http_status status.1 = 500 /\ http_status result.1 = 500.
Proof. vm_compute. by split. Qed.

(** X22.  Results are cached apart by task and by tone: two requests that
    differ in the task or in the modifier have different keys, and the
    dispatch of one leaves the entry of the other as it was. *)
Theorem tasks_and_tones_are_cached_apart
    (model : list call -> call -> N * res (list Z)) (CACHE_TTL : Z)
    (r1 r2 : sync_request) (k1 k2 : list Z) (w : world) :
  key_of r1 = Ok k1 -> key_of r2 = Ok k2 ->
  task_of r1 <> task_of r2 \/ modifier_of r1 <> modifier_of r2 ->
  k1 <> k2
  /\ redis (dispatch model CACHE_TTL r1 w).2 !! k2 = redis w !! k2.
Proof.
  intros H1 H2 Hne.
  assert (k1 <> k2) as Hk.
  { intros ->. destruct (key_of_fields r1 r2 k2 H1 H2) as (Ht & Hm & _).
    by destruct Hne. }
  split; [exact Hk|]. apply dispatch_other_keys. congruence.
Qed.

Lemma tasks_and_tones_are_cached_apart_witness :
  let r1 := Rewrite {| rw_text := py "abc"; rw_tone := Formal |} in
  let r2 := Rewrite {| rw_text := py "abc"; rw_tone := Informal |} in
  let k1 := py "cache:rewrite:formal:ba7816bf8f01cfea414140de5dae2223b00361a396177a9cb410ff61f20015ad" in
  let k2 := py "cache:rewrite:informal:ba7816bf8f01cfea414140de5dae2223b00361a396177a9cb410ff61f20015ad" in
  key_of r1 = Ok k1 /\ key_of r2 = Ok k2
  /\ k1 <> k2
  /\ redis (dispatch (model_const 2 (Ok (py "x"))) 86400 r1 initial).2 !! k2
     = redis initial !! k2.
Proof.
  intros r1 r2 k1 k2.
  assert (key_of r1 = Ok k1) as H1 by (vm_compute; reflexivity).
  assert (key_of r2 = Ok k2) as H2 by (vm_compute; reflexivity).
  split; [exact H1|]. split; [exact H2|].
  apply (tasks_and_tones_are_cached_apart (model_const 2 (Ok (py "x"))) 86400
           r1 r2 k1 k2 initial H1 H2).
  right. vm_compute. discriminate.
Defined.
